(** * mini-fuzz: the trace detector and the fuzzing orchestrator

    A shallow embedding of [src/detectors/detector.py] and
    [src/fuzzer/mini_fuzzer.py], with what [src/testnet/blockchain.py] does
    before and after it calls web3, the search for the compiler version of
    [src/utils/compiler.py] and the script of [src/main.py].

    Python objects are modelled as the code uses them:
    - the detector's [__sloads] dict is a [gmap string Z], its [__calls] set
      a [gset Z], its [__flag] a [bool];
    - a structLog entry is a record with its ["op"], ["pc"] and ["stack"],
      the stack being a list of hex words with its top last;
    - the syntax tree is a JSON value, whose missing keys raise [KeyError];
    - an exception is a value of [PyExc] carried by [result];
    - [logging.critical] appends to a list of findings; the messages of
      [logging.info] and [logging.error] are not kept;
    - [random] draws from an arbitrary entropy source, and the node answers
      each request as an arbitrary function of the requests made so far.
    Strings are ASCII, as the hex words of a trace and the type strings of
    a Solidity syntax tree are. The arguments of the command line are what
    the user types: they are texts in their UTF-8 bytes, and what [int]
    makes of one with characters beyond ASCII is left to the interpreter
    ([unicode_int]). Memory is not bounded. *)

From Stdlib Require Import ZArith Ascii String List Lia Bool.
From stdpp Require Import gmap strings list.

Local Open Scope Z_scope.

(** ** Python values, exceptions and the few builtins the code calls *)

Inductive PyExc : Set :=
  | IndexError | ValueError | KeyError | TypeError | AttributeError
  | OverflowError | RPCError.

Inductive result (A : Type) : Type :=
  | Ok (a : A)
  | Raise (e : PyExc).
Arguments Ok {A} a.
Arguments Raise {A} e.

Definition is_Ok {A} (r : result A) : bool :=
  match r with Ok _ => true | Raise _ => false end.

(** [l[i]] for an integer [i]: a negative index counts from the end, and an
    index outside the list raises [IndexError]. *)
Definition py_getitem {A} (l : list A) (i : Z) : result A :=
  let n := Z.of_nat (length l) in
  let j := if i <? 0 then i + n else i in
  if (j <? 0) || (n <=? j) then Raise IndexError
  else match l !! Z.to_nat j with
       | Some x => Ok x
       | None => Raise IndexError
       end.

(** C's [isspace] on ASCII, which is what [int] skips around a literal. *)
Definition Py_ISSPACE (c : ascii) : bool :=
  let n := Z.of_nat (nat_of_ascii c) in
  ((9 <=? n) && (n <=? 13)) || (n =? 32).

(** The value of a character as a digit; 37 for a character that is none. *)
Definition digit_value (c : ascii) : Z :=
  let n := Z.of_nat (nat_of_ascii c) in
  if (48 <=? n) && (n <=? 57) then n - 48
  else if (97 <=? n) && (n <=? 122) then n - 87
  else if (65 <=? n) && (n <=? 90) then n - 55
  else 37.

Definition is_underscore (c : ascii) : bool := Ascii.eqb c "_"%char.

(** Reads digits of [base], single underscores allowed between them.
    [None]: two underscores in a row, or one at the end. Otherwise the
    value read, the number of digits and what follows them. *)
Fixpoint scan_digits (base : Z) (prev_us : bool) (acc : Z) (ndig : nat)
    (l : list ascii) : option (Z * nat * list ascii) :=
  match l with
  | [] => if prev_us then None else Some (acc, ndig, [])
  | c :: r =>
      if is_underscore c then
        if prev_us then None else scan_digits base true acc ndig r
      else if digit_value c <? base then
        scan_digits base false (acc * base + digit_value c) (S ndig) r
      else if prev_us then None else Some (acc, ndig, l)
  end.

(** The letter that may follow a leading ["0"] in a literal of [base]. *)
Definition radix_letter (base : Z) (c : ascii) : bool :=
  ((base =? 16) && (Ascii.eqb c "x"%char || Ascii.eqb c "X"%char))
  || ((base =? 8) && (Ascii.eqb c "o"%char || Ascii.eqb c "O"%char))
  || ((base =? 2) && (Ascii.eqb c "b"%char || Ascii.eqb c "B"%char)).

Fixpoint skip_spaces (l : list ascii) : list ascii :=
  match l with
  | c :: r => if Py_ISSPACE c then skip_spaces r else l
  | [] => []
  end.

Definition is_pow2_base (base : Z) : bool :=
  (base =? 2) || (base =? 4) || (base =? 8) || (base =? 16) || (base =? 32).

(** [sys.get_int_max_str_digits()], at its default. *)
Definition int_max_str_digits : nat := 4300.

(** [int(s, base)] for a string [s] and [2 <= base <= 36]: optional
    surrounding white space, an optional sign, an optional radix prefix,
    then at least one digit. Anything else raises [ValueError]. *)
Definition py_int (s : string) (base : Z) : result Z :=
  let l0 := skip_spaces (list_ascii_of_string s) in
  let '(sign, l1) :=
    match l0 with
    | "+"%char :: r => (1, r)
    | "-"%char :: r => (-1, r)
    | _ => (1, l0)
    end in
  let l2 :=
    match l1 with
    | "0"%char :: x :: r =>
        if radix_letter base x then
          match r with "_"%char :: r' => r' | _ => r end
        else l1
    | _ => l1
    end in
  match l2 with
  | "_"%char :: _ => Raise ValueError
  | _ =>
      match scan_digits base false 0 0%nat l2 with
      | None => Raise ValueError
      | Some (v, ndig, rest) =>
          if (ndig =? 0)%nat then Raise ValueError
          else if negb (is_pow2_base base) && (int_max_str_digits <? ndig)%nat
          then Raise ValueError
          else match skip_spaces rest with
               | [] => Ok (sign * v)
               | _ :: _ => Raise ValueError
               end
      end
  end.

(** ** The monad of the program

    A computation reads and updates a state [S], may raise, and may log
    findings through [logging.critical]. *)

Inductive Finding : Set :=
  | SCWE_046   (* "SCWE-046: Reentrancy Attack detected!" *)
  | SCWE_018.  (* "SCWE-018: Use of tx.origin for Authorization detected!" *)

#[global] Instance Finding_eq_dec : EqDecision Finding.
Proof. solve_decision. Defined.

Definition Py (S A : Type) : Type := S -> result A * S * list Finding.

Definition ret {S A} (a : A) : Py S A := fun s => (Ok a, s, []).

Definition bind {S A B} (m : Py S A) (k : A -> Py S B) : Py S B :=
  fun s =>
    match m s with
    | (Ok a, s1, l1) => let '(r, s2, l2) := k a s1 in (r, s2, l1 ++ l2)
    | (Raise e, s1, l1) => (Raise e, s1, l1)
    end.

Notation "'let!' x ':=' m 'in' k" := (bind m (fun x => k))
  (at level 10, x name, m at level 100, k at level 200, only parsing).
Notation "'do!' m 'in' k" := (bind m (fun _ => k))
  (at level 10, m at level 100, k at level 200, only parsing).

Definition raise {S A} (e : PyExc) : Py S A := fun s => (Raise e, s, []).
Definition get {S} : Py S S := fun s => (Ok s, s, []).
Definition modify {S} (f : S -> S) : Py S unit := fun s => (Ok tt, f s, []).
Definition critical {S} (f : Finding) : Py S unit := fun s => (Ok tt, s, [f]).

Definition lift {S A} (r : result A) : Py S A :=
  match r with Ok a => ret a | Raise e => raise e end.

(** [try: m  except Exception: h]. What [m] did to the state before it
    raised stays done. *)
Definition try_except {S A} (m : Py S A) (h : Py S A) : Py S A :=
  fun s =>
    match m s with
    | (Ok a, s1, l1) => (Ok a, s1, l1)
    | (Raise _, s1, l1) => let '(r, s2, l2) := h s1 in (r, s2, l1 ++ l2)
    end.

(** [for x in xs: body x] *)
Fixpoint for_each {S A} (xs : list A) (body : A -> Py S unit) : Py S unit :=
  match xs with
  | [] => ret tt
  | x :: rest => do! body x in for_each rest body
  end.

(** Accessors of the three components of a run. *)
Definition outcome {S A} (r : result A * S * list Finding) : result A := r.1.1.
Definition final {S A} (r : result A * S * list Finding) : S := r.1.2.
Definition logged {S A} (r : result A * S * list Finding) : list Finding := r.2.

(** ** src/detectors/detector.py *)

(** One entry of [structLogs]. The stack has its top last. *)
Record Instruction : Type := {
  op : string;
  pc : Z;
  stack : list string
}.

Record VulnerabilityDetector : Type := {
  sloads : gmap string Z;   (* {storage_index: program_counter} *)
  calls : gset Z;           (* program counters of the risky calls *)
  flag : bool
}.

Module Detector.

Definition __init__ : VulnerabilityDetector :=
  {| sloads := ∅; calls := ∅; flag := false |}.

(** [for pc in self.__sloads.values(): if pc < instruction["pc"]: ...; return] *)
Fixpoint scan_sloads (ipc : Z) (pcs : list Z) : Py VulnerabilityDetector unit :=
  match pcs with
  | [] => ret tt
  | pc :: rest =>
      if pc <? ipc then
        do! critical SCWE_046 in
        modify (fun self =>
          {| sloads := sloads self; calls := calls self; flag := true |})
      else scan_sloads ipc rest
  end.

(** [for pc in self.__calls: if pc < instruction["pc"] and not self.__flag: ...; return] *)
Fixpoint scan_calls (ipc : Z) (pcs : list Z) : Py VulnerabilityDetector unit :=
  match pcs with
  | [] => ret tt
  | pc :: rest =>
      let! self := get in
      if (pc <? ipc) && negb (flag self) then critical SCWE_046
      else scan_calls ipc rest
  end.

(** The order in which Python walks a dict or a set is not the order of
    [map_to_list] or [elements]; both loops stop at the first hit and do
    the same thing at every hit, so only the existence of a hit counts
    (lemmas [scan_sloads_spec] and [scan_calls_spec]). *)
Definition reentrancy (instruction : Instruction) : Py VulnerabilityDetector unit :=
  let! self := get in
  if bool_decide (op instruction = "SLOAD") then
    let! storage_index := lift (py_getitem (stack instruction) (-1)) in
    modify (fun self =>
      {| sloads := <[storage_index := pc instruction]> (sloads self);
         calls := calls self; flag := flag self |})
  else if bool_decide (op instruction = "CALL")
          && bool_decide (sloads self ≠ ∅) then
    let! top := lift (py_getitem (stack instruction) (-1)) in
    let! gas := lift (py_int top 16) in
    let! third := lift (py_getitem (stack instruction) (-3)) in
    let! value := lift (py_int third 16) in
    if (2300 <? gas) && (0 <? value) then
      do! modify (fun self =>
            {| sloads := sloads self;
               calls := {[pc instruction]} ∪ calls self;
               flag := flag self |}) in
      scan_sloads (pc instruction) (map_to_list (sloads self)).*2
    else ret tt
  else if bool_decide (op instruction = "SSTORE")
          && bool_decide (calls self ≠ ∅) then
    let! storage_index := lift (py_getitem (stack instruction) (-1)) in
    if bool_decide (is_Some (sloads self !! storage_index)) then
      scan_calls (pc instruction) (elements (calls self))
    else ret tt
  else ret tt.

Definition tx_origin (instruction : Instruction) : Py VulnerabilityDetector unit :=
  if bool_decide (op instruction = "ORIGIN") then critical SCWE_018
  else ret tt.

Definition reset_variables : Py VulnerabilityDetector unit :=
  modify (fun _ => {| sloads := ∅; calls := ∅; flag := false |}).

End Detector.

(** ** Values of the syntax tree and of the generated arguments *)

(** The syntax tree as the compiler wrapper returns it: the Python value of
    a JSON text. A dict keeps its pairs in order; a lookup takes the first
    pair with the key. *)
#[local] Unset Elimination Schemes.
Inductive json : Type :=
  | JNull
  | JBool (b : bool)
  | JInt (z : Z)
  | JStr (s : string)
  | JList (l : list json)
  | JDict (kv : list (string * json)).
#[local] Set Elimination Schemes.

Fixpoint assoc (k : string) (kv : list (string * json)) : option json :=
  match kv with
  | [] => None
  | (k', v) :: rest => if bool_decide (k' = k) then Some v else assoc k rest
  end.

(** [x[k]] for a string [k]. *)
Definition subscript (x : json) (k : string) : result json :=
  match x with
  | JDict kv => match assoc k kv with Some v => Ok v | None => Raise KeyError end
  | _ => Raise TypeError
  end.

(** The items [for y in x] walks through. *)
Definition py_iter (x : json) : result (list json) :=
  match x with
  | JList l => Ok l
  | JDict kv => Ok (map (fun p => JStr p.1) kv)
  | JStr s => Ok (map (fun c => JStr (String c EmptyString)) (list_ascii_of_string s))
  | _ => Raise TypeError
  end.

(** [x == "..."] *)
Definition eq_str (x : json) (s : string) : bool :=
  match x with JStr s' => bool_decide (s' = s) | _ => false end.

(** [s.replace(old, '')] for a non-empty [old]; [skip] counts the characters
    still to drop of the occurrence being removed. *)
Fixpoint str_remove (old : string) (skip : nat) (s : string) : string :=
  match s with
  | EmptyString => EmptyString
  | String c r =>
      match skip with
      | S k => str_remove old k r
      | O =>
          if String.prefix old s
          then str_remove old (String.length old - 1) r
          else String c (str_remove old 0 r)
      end
  end.

(** A generated argument; [VNone] is Python's [None]. *)
Inductive PyVal : Type :=
  | VInt (z : Z)
  | VStr (s : string)
  | VBool (b : bool)
  | VNone.

Record FunctionPlan : Type := {
  name : json;
  inputs : option (list PyVal);   (* [None]: generate_inputs failed *)
  value : Z
}.

(** ** The node, seen from the fuzzer *)

Record Contract : Type := { address : string }.
Record TxReceipt : Type := { transactionHash : string }.

Record DebugResult : Type := {
  failed : bool;
  structLogs : list Instruction
}.

(** What the wrapper asks of web3 and the node. The abi and the bytecode
    are the same in every deployment of a run and are left out. *)
Inductive Request : Type :=
  | Deploy (constructor_args : option (list PyVal))
  | Transact (contract : Contract) (function_name : json)
      (args : list PyVal) (ether : Z)
  | TraceTransaction (receipt : TxReceipt).

(** Everything that changes while the fuzzer runs: its detector, the
    number of draws taken from [random], and the requests made so far
    (latest first). *)
Record World : Type := {
  detector : VulnerabilityDetector;
  draws : nat;
  requests : list Request
}.

(** Runs a method of the detector on the fuzzer's detector. *)
Definition on_detector {A} (m : Py VulnerabilityDetector A) : Py World A :=
  fun w =>
    let '(r, d, l) := m (detector w) in
    (r, {| detector := d; draws := draws w; requests := requests w |}, l).

(** Lines 138-139: one instruction through both rules. *)
Definition scan_instruction (instruction : Instruction)
    : Py VulnerabilityDetector unit :=
  do! Detector.reentrancy instruction in
  Detector.tx_origin instruction.

(** Lines 136-139: the loop over the trace. *)
Definition feed (struct_logs : list Instruction) : Py VulnerabilityDetector unit :=
  for_each struct_logs scan_instruction.

(** Lines 136-141: the loop, then the reset. *)
Definition analyse (struct_logs : list Instruction) : Py VulnerabilityDetector unit :=
  do! feed struct_logs in
  Detector.reset_variables.

Section Fuzzer.

(** The entropy behind [random]: draw number [k] is [entropy k]. *)
Variable entropy : nat -> Z.
(** [Web3.to_checksum_address] *)
Variable to_checksum_address : string -> string.
(** The node and web3: what each kind of request answers, given all
    requests so far, the current one first. [None] is an exception raised
    inside the wrapper's [try]. *)
Variable node_deploys : list Request -> option Contract.
Variable node_transacts : list Request -> option TxReceipt.
Variable node_traces : list Request -> result DebugResult.
(** [self.__ast] *)
Variable ast : json.

Definition draw : Py World Z :=
  fun w =>
    (Ok (entropy (draws w)),
     {| detector := detector w; draws := S (draws w); requests := requests w |},
     []).

(** [random.randint(a, b)] *)
Definition randint (a b : Z) : Py World Z :=
  let! r := draw in ret (a + r mod (b - a + 1)).

(** [random.choice(seq)] for a non-empty [seq] *)
Definition choice {A} (default : A) (seq : list A) : Py World A :=
  let! i := randint 0 (Z.of_nat (length seq) - 1) in
  ret (nth (Z.to_nat i) seq default).

(** [''.join(random.choices(population, k=k))]; nothing is drawn for [k <= 0]. *)
Fixpoint choices_nat (population : list ascii) (k : nat) : Py World string :=
  match k with
  | O => ret EmptyString
  | S k' =>
      let! c := choice "0"%char population in
      let! rest := choices_nat population k' in
      ret (String c rest)
  end.

(** [sys.maxsize] of a 64-bit interpreter. *)
Definition sys_maxsize : Z := 2 ^ 63 - 1.

(** [random.choices] counts its draws with [itertools.repeat(None, k)],
    which raises [OverflowError] before any draw when [k] is no C
    [ssize_t]. *)
Definition choices (population : string) (k : Z) : Py World string :=
  if sys_maxsize <? k then raise OverflowError
  else choices_nat (list_ascii_of_string population) (Z.to_nat k).

Definition request (q : Request) : Py World unit :=
  modify (fun w =>
    {| detector := detector w; draws := draws w; requests := q :: requests w |}).

(** *** src/testnet/blockchain.py *)

Definition deploy_smart_contract (constructor_args : option (list PyVal))
    : Py World (option Contract) :=
  do! request (Deploy constructor_args) in
  let! w := get in
  ret (node_deploys (requests w)).

(** [len(function["inputs"])] raises inside the [try] when the inputs are
    [None]: the wrapper answers [None] and no transaction is sent. *)
Definition execute_transaction (contract : Contract) (function : FunctionPlan)
    : Py World (option TxReceipt) :=
  match inputs function with
  | None => ret None
  | Some args =>
      do! request (Transact contract (name function) args (value function)) in
      let! w := get in
      ret (node_transacts (requests w))
  end.

Definition debug_transaction (tx_receipt : TxReceipt) : Py World DebugResult :=
  do! request (TraceTransaction tx_receipt) in
  let! w := get in
  lift (node_traces (requests w)).

(** *** src/fuzzer/mini_fuzzer.py *)

Definition hexdigits : string := "0123456789abcdef".
Definition letters : string :=
  "abcdefghijklmnopqrstuvwxyzABCDEFGHIJKLMNOPQRSTUVWXYZ".

(** The body of the loop of [generate_inputs], up to the [append]: the
    value for one parameter. *)
Definition generate_value (param : json) : Py World PyVal :=
  let! type_descriptions := lift (subscript param "typeDescriptions") in
  let! param_type := lift (subscript type_descriptions "typeString") in
  if eq_str param_type "uint256" || eq_str param_type "uint" then
    let! n := randint 0 (2 ^ 256 - 1) in ret (VInt n)
  else if eq_str param_type "address" then
    let! digits := choices hexdigits 40 in
    ret (VStr (to_checksum_address (String.append "0x" digits)))
  else if eq_str param_type "string" then
    let! k := randint 5 15 in
    let! chars := choices letters k in
    ret (VStr chars)
  else if eq_str param_type "bool" then
    let! b := choice true [true; false] in ret (VBool b)
  else
    match param_type with
    | JStr s =>
        if String.prefix "bytes" s then
          let! size :=
            (if (5 <? String.length s)%nat
             then lift (py_int (str_remove "bytes" 0 s) 10)
             else randint 1 32) in
          let! digits := choices hexdigits (size * 2) in
          ret (VStr (String.append "0x" digits))
        else ret VNone
    | _ => raise AttributeError   (* no [startswith] on this value *)
    end.

(** [for x in xs: out.append(body x)] *)
Fixpoint for_append {A B} (xs : list A) (body : A -> Py World B)
    : Py World (list B) :=
  match xs with
  | [] => ret []
  | x :: rest =>
      let! y := body x in
      let! ys := for_append rest body in
      ret (y :: ys)
  end.

Definition generate_inputs (param_list : json) : Py World (option (list PyVal)) :=
  try_except
    (let! params := lift (py_iter param_list) in
     let! inputs := for_append params generate_value in
     ret (Some inputs))
    (ret None).

(** The locals [functions] and [constructor_inputs] of [generate_test_suite]. *)
Definition Suite : Type := list FunctionPlan * option (list PyVal).

(** One member [vf] of a contract definition. *)
Definition visit_member (acc : Suite) (vf : json) : Py World Suite :=
  let! node_type := lift (subscript vf "nodeType") in
  if eq_str node_type "FunctionDefinition" then
    let! kind := lift (subscript vf "kind") in
    if eq_str kind "function" then
      let! fname := lift (subscript vf "name") in
      let! parameters := lift (subscript vf "parameters") in
      let! param_list := lift (subscript parameters "parameters") in
      let! generated := generate_inputs param_list in
      let! mutability := lift (subscript vf "stateMutability") in
      let! ether :=
        (if eq_str mutability "payable"
         then randint (10 ^ 15) (5 * 10 ^ 18) else ret 0) in
      ret (acc.1 ++ [{| name := fname; inputs := generated; value := ether |}],
           acc.2)
    else if eq_str kind "constructor" then
      let! parameters := lift (subscript vf "parameters") in
      let! param_list := lift (subscript parameters "parameters") in
      let! generated := generate_inputs param_list in
      ret (acc.1, generated)
    else ret acc
  else ret acc.

(** [for x in xs: acc = body acc x] *)
Fixpoint for_fold {A B} (xs : list A) (acc : B) (body : B -> A -> Py World B)
    : Py World B :=
  match xs with
  | [] => ret acc
  | x :: rest => let! acc' := body acc x in for_fold rest acc' body
  end.

Definition visit_node (acc : Suite) (node : json) : Py World Suite :=
  let! node_type := lift (subscript node "nodeType") in
  if eq_str node_type "ContractDefinition" then
    let! members := lift (subscript node "nodes") in
    let! vfs := lift (py_iter members) in
    for_fold vfs acc visit_member
  else ret acc.

(** Returns [(None, None)] on failure. *)
Definition generate_test_suite
    : Py World (option (list FunctionPlan) * option (list PyVal)) :=
  try_except
    (let! nodes := lift (subscript ast "nodes") in
     let! nodes := lift (py_iter nodes) in
     let! suite := for_fold nodes ([], None) visit_node in
     ret (Some suite.1, suite.2))
    (ret (None, None)).

(** Lines 130-135: the trace to analyse for one planned call, if any. *)
Definition trace_to_analyse (contract : Contract) (function : FunctionPlan)
    : Py World (option (list Instruction)) :=
  let! tx_receipt := execute_transaction contract function in
  match tx_receipt with
  | Some receipt =>
      let! result := debug_transaction receipt in
      if negb (failed result) then ret (Some (structLogs result)) else ret None
  | None => ret None
  end.


Definition execute_function (contract : Contract) (function : FunctionPlan)
    : Py World unit :=
  let! trace := trace_to_analyse contract function in
  match trace with
  | Some struct_logs => on_detector (analyse struct_logs)
  | None => ret tt
  end.

(** [functions] is [None] when [generate_test_suite] failed, and
    [for function in None] raises [TypeError]. *)
Definition execute_functions (functions : option (list FunctionPlan))
    (contract : Contract) : Py World unit :=
  match functions with
  | None => raise TypeError
  | Some fs => for_each fs (execute_function contract)
  end.

(** The body of the loop of [run]. *)
Definition round : Py World unit :=
  let! suite := generate_test_suite in
  let! deployed_contract := deploy_smart_contract suite.2 in
  match deployed_contract with
  | Some contract => execute_functions suite.1 contract
  | None => ret tt
  end.

Definition run (num_tests : Z) : Py World unit :=
  for_each (seq 0 (Z.to_nat num_tests)) (fun _ => round).

End Fuzzer.

(** ** Vocabulary of the properties *)

(** [int(instruction["stack"][-1], 16)] and [int(instruction["stack"][-3], 16)] *)
Definition call_gas (i : Instruction) : result Z :=
  match py_getitem (stack i) (-1) with
  | Ok top => py_int top 16
  | Raise e => Raise e
  end.

Definition call_value (i : Instruction) : result Z :=
  match py_getitem (stack i) (-3) with
  | Ok third => py_int third 16
  | Raise e => Raise e
  end.

(** Some recorded read has a pc below [ipc]. *)
Definition read_before (s : VulnerabilityDetector) (ipc : Z) : Prop :=
  map_Exists (λ _ rpc, rpc < ipc) (sloads s).

(** Some recorded risky call has a pc below [ipc]. *)
Definition call_before (s : VulnerabilityDetector) (ipc : Z) : Prop :=
  set_Exists (λ cpc, cpc < ipc) (calls s).

#[global] Instance read_before_dec s ipc : Decision (read_before s ipc).
Proof. unfold read_before. apply _. Defined.

#[global] Instance call_before_dec s ipc : Decision (call_before s ipc).
Proof. unfold call_before. apply _. Defined.

(** The number of recorded risky calls with a pc below [ipc]. *)
Definition calls_before (s : VulnerabilityDetector) (ipc : Z) : nat :=
  size (filter (λ cpc, cpc < ipc) (calls s)).

(** A call that the call branch reports in state [s]. *)
Definition qualifying_call (s : VulnerabilityDetector) (i : Instruction) : Prop :=
  op i = "CALL" ∧
  (∃ g v, call_gas i = Ok g ∧ call_value i = Ok v ∧ 2300 < g ∧ 0 < v) ∧
  read_before s (pc i).

(** The stack holds what the rule of the opcode reads. *)
Definition has_operands (i : Instruction) : Prop :=
  (op i = "SLOAD" → stack i ≠ []) ∧
  (op i = "SSTORE" → stack i ≠ []) ∧
  (op i = "CALL" → is_Ok (call_gas i) = true ∧ is_Ok (call_value i) = true).

Definition count_finding (f : Finding) (log : list Finding) : nat :=
  count_occ Finding_eq_dec log f.

Definition origin_count (trace : list Instruction) : nat :=
  length (filter (λ i, op i = "ORIGIN") trace).

Definition set_flag (b : bool) (s : VulnerabilityDetector) : VulnerabilityDetector :=
  {| sloads := sloads s; calls := calls s; flag := b |}.

Definition add_call (ipc : Z) (s : VulnerabilityDetector) : VulnerabilityDetector :=
  {| sloads := sloads s; calls := {[ipc]} ∪ calls s; flag := flag s |}.

Definition record_read (slot : string) (ipc : Z) (s : VulnerabilityDetector)
    : VulnerabilityDetector :=
  {| sloads := <[slot := ipc]> (sloads s); calls := calls s; flag := flag s |}.

(** What [Detector.reentrancy] computes, branch by branch, without the
    monad (lemma [reentrancy_step]). *)
Definition reentrancy_step (i : Instruction) (s : VulnerabilityDetector)
    : result unit * VulnerabilityDetector * list Finding :=
  if bool_decide (op i = "SLOAD") then
    match py_getitem (stack i) (-1) with
    | Ok slot => (Ok tt, record_read slot (pc i) s, [])
    | Raise e => (Raise e, s, [])
    end
  else if bool_decide (op i = "CALL") && bool_decide (sloads s ≠ ∅) then
    match call_gas i with
    | Raise e => (Raise e, s, [])
    | Ok g =>
        match call_value i with
        | Raise e => (Raise e, s, [])
        | Ok v =>
            if (2300 <? g) && (0 <? v) then
              if existsb (λ p, p <? pc i) (map_to_list (sloads s)).*2
              then (Ok tt, set_flag true (add_call (pc i) s), [SCWE_046])
              else (Ok tt, add_call (pc i) s, [])
            else (Ok tt, s, [])
        end
    end
  else if bool_decide (op i = "SSTORE") && bool_decide (calls s ≠ ∅) then
    match py_getitem (stack i) (-1) with
    | Raise e => (Raise e, s, [])
    | Ok slot =>
        (Ok tt, s,
         if bool_decide (is_Some (sloads s !! slot))
            && existsb (λ p, p <? pc i) (elements (calls s))
            && negb (flag s)
         then [SCWE_046] else [])
    end
  else (Ok tt, s, []).

(** Sample instructions. A call has seven operands, the gas on top, then
    the callee, then the value. *)
Definition sload_at (ipc : Z) (slot : string) : Instruction :=
  {| op := "SLOAD"; pc := ipc; stack := [slot] |}.

Definition sstore_at (ipc : Z) (slot : string) : Instruction :=
  {| op := "SSTORE"; pc := ipc; stack := ["0x1"; slot] |}.

Definition call_at (ipc : Z) (gas value : string) : Instruction :=
  {| op := "CALL"; pc := ipc;
     stack := ["0x0"; "0x0"; "0x0"; "0x0"; value; "0xcafe"; gas] |}.

Definition origin_at (ipc : Z) : Instruction :=
  {| op := "ORIGIN"; pc := ipc; stack := [] |}.

(** The gas is at most the stipend, or no ether is sent. *)
Definition harmless (i : Instruction) : Prop :=
  op i = "CALL" →
  ∀ g v, call_gas i = Ok g → call_value i = Ok v → g ≤ 2300 ∨ v = 0.

(** A trace whose two calls are not risky. *)
Definition harmless_trace : list Instruction :=
  [ sload_at 10 "0x0";
    call_at 20 "0x5208" "0x0";                (* enough gas, no ether *)
    sstore_at 30 "0x0";
    call_at 40 "0x8fc" "0xde0b6b3a7640000";   (* 2300 gas, one ether *)
    sstore_at 50 "0x0" ].

(** A storage read whose stack is empty. *)
Definition truncated_sload : Instruction :=
  {| op := "SLOAD"; pc := 1; stack := [] |}.

(** A read at pc 10, then two risky calls: 21000 gas and one ether each. *)
Definition two_risky_calls : list Instruction :=
  [ sload_at 10 "0x0";
    call_at 20 "0x5208" "0xde0b6b3a7640000";
    call_at 30 "0x5208" "0xde0b6b3a7640000" ].

(** A read at pc 50, then two risky calls at lower pcs, as after a jump
    backwards: neither call reports, the latch stays clear. *)
Definition calls_below_read : list Instruction :=
  [ sload_at 50 "0x0";
    call_at 20 "0x5208" "0xde0b6b3a7640000";
    call_at 30 "0x5208" "0xde0b6b3a7640000" ].

(** [param["typeDescriptions"]["typeString"]] *)
Definition type_string (param : json) : result json :=
  match subscript param "typeDescriptions" with
  | Ok type_descriptions => subscript type_descriptions "typeString"
  | Raise e => Raise e
  end.


(** A computation that leaves the detector of the fuzzer alone. *)
Definition preserves_detector {A} (m : Py World A) : Prop :=
  ∀ w, detector (final (m w)) = detector w.

(** The detector is as [__init__] builds it. *)
Definition pristine (w : World) : Prop := detector w = Detector.__init__.

(** The world before anything happened. *)
Definition new_world : World :=
  {| detector := Detector.__init__; draws := 0; requests := [] |}.

(** Sample syntax trees. *)
Definition param_node (ty : string) : json :=
  JDict [("name", JStr "x"); ("nodeType", JStr "VariableDeclaration");
         ("typeDescriptions", JDict [("typeString", JStr ty)])].

Definition function_node (fname mutability : string) (params : list json) : json :=
  JDict [("nodeType", JStr "FunctionDefinition"); ("kind", JStr "function");
         ("name", JStr fname);
         ("parameters", JDict [("nodeType", JStr "ParameterList");
                               ("parameters", JList params)]);
         ("stateMutability", JStr mutability)].

Definition source_unit (members : list json) : json :=
  JDict [("nodeType", JStr "SourceUnit");
         ("nodes", JList [JDict [("nodeType", JStr "PragmaDirective")];
                          JDict [("nodeType", JStr "ContractDefinition");
                                 ("nodes", JList members)]])].

(** A function definition as compilers before 0.5 print it: no ["kind"]. *)
Definition ast_without_kind : json :=
  source_unit
    [JDict [("nodeType", JStr "FunctionDefinition");
            ("isConstructor", JBool false);
            ("name", JStr "withdraw");
            ("parameters", JDict [("parameters", JList [param_node "uint256"])]);
            ("stateMutability", JStr "nonpayable")]].

(** [function set(bytes32[] x)]: the type string starts with "bytes" and
    [int] raises on what follows. *)
Definition ast_bytes_array : json :=
  source_unit [function_node "set" "nonpayable" [param_node "bytes32[]"]].

Definition ast_two_functions : json :=
  source_unit [function_node "deposit" "payable" [];
               function_node "withdraw" "nonpayable" [param_node "uint256"]].

(** Sample collaborators: an entropy source that always gives 0, a checksum
    that changes nothing, a node that deploys, mines and traces whatever it
    is asked, every trace being [logs]. *)
Definition zero_entropy : nat -> Z := fun _ => 0.
Definition no_checksum : string -> string := fun a => a.
Definition always_deploys : list Request -> option Contract :=
  fun _ => Some {| address := "0xc0ffee" |}.
Definition always_mines : list Request -> option TxReceipt :=
  fun _ => Some {| transactionHash := "0xfeed" |}.
Definition always_traces (logs : list Instruction) : list Request -> result DebugResult :=
  fun _ => Ok {| failed := false; structLogs := logs |}.

(** The plan built from [ast_two_functions] under [zero_entropy], and the
    contract that [always_deploys] answers. *)
Definition deposit_plan : FunctionPlan :=
  {| name := JStr "deposit"; inputs := Some []; value := 10 ^ 15 |}.
Definition withdraw_plan : FunctionPlan :=
  {| name := JStr "withdraw"; inputs := Some [VInt 0]; value := 0 |}.
Definition sample_contract : Contract := {| address := "0xc0ffee" |}.

(** ** Vocabulary of the further properties *)

(** [gas > 2300 and value > 0], for operands that parse. *)
Definition risky (i : Instruction) : bool :=
  match call_gas i, call_value i with
  | Ok g, Ok v => (2300 <? g) && (0 <? v)
  | _, _ => false
  end.

(** The pc of the last SLOAD of [tr] whose top of stack is [slot];
    [known] when there is none. *)
Fixpoint last_read (slot : string) (known : option Z) (tr : list Instruction)
    : option Z :=
  match tr with
  | [] => known
  | i :: rest =>
      last_read slot
        (if bool_decide (op i = "SLOAD") then
           match py_getitem (stack i) (-1) with
           | Ok top => if bool_decide (top = slot) then Some (pc i) else known
           | Raise _ => known
           end
         else known)
        rest
  end.

(** The pcs of the risky calls of [tr] that come after a storage read;
    [seen] tells whether a read was recorded before [tr]. *)
Fixpoint risky_calls (seen : bool) (tr : list Instruction) : gset Z :=
  match tr with
  | [] => ∅
  | i :: rest =>
      if bool_decide (op i = "SLOAD") then risky_calls true rest
      else if bool_decide (op i = "CALL") && seen && risky i
      then {[pc i]} ∪ risky_calls seen rest
      else risky_calls seen rest
  end.

(** The pcs of [tr] go up strictly. *)
Fixpoint increasing_from (bound : Z) (tr : list Instruction) : Prop :=
  match tr with
  | [] => True
  | i :: rest => bound ≤ pc i ∧ increasing_from (pc i + 1) rest
  end.

(** What the latch and the two records of a detector tell of each other
    when it started as new. *)
Definition consistent (s : VulnerabilityDetector) : Prop :=
  (flag s = true → calls s ≠ ∅) ∧ (calls s ≠ ∅ → sloads s ≠ ∅).

(** The instruction makes its rule read an operand that is not there, or
    not a number, in state [s]. *)
Definition lacks_operand (s : VulnerabilityDetector) (i : Instruction) : Prop :=
  (op i = "SLOAD" ∧ stack i = []) ∨
  (op i = "CALL" ∧ sloads s ≠ ∅ ∧
   (is_Ok (call_gas i) = false ∨ is_Ok (call_value i) = false)) ∨
  (op i = "SSTORE" ∧ calls s ≠ ∅ ∧ stack i = []).

(** The world after [k] more draws from the entropy. *)
Definition advance (k : nat) (w : World) : World :=
  {| detector := detector w; draws := draws w + k; requests := requests w |}.

(** Every character of [s] is one of [population]. *)
Definition drawn_from (population s : string) : Prop :=
  Forall (λ c, c ∈ list_ascii_of_string population) (list_ascii_of_string s).

(** A parameter for which the loop of [generate_inputs] raises: no type
    string, a type string that is no string, or one that starts with
    "bytes" and goes on with something that is no integer. *)
Definition unusable (param : json) : Prop :=
  (∃ e, type_string param = Raise e) ∨
  (∃ j, type_string param = Ok j ∧ ∀ ty, j ≠ JStr ty) ∨
  (∃ ty e, type_string param = Ok (JStr ty) ∧
           String.prefix "bytes" ty = true ∧ (5 < String.length ty)%nat ∧
           py_int (str_remove "bytes" 0 ty) 10 = Raise e).

(** A computation that keeps [f] of the world as it is. *)
Definition keeps {A X} (f : World → X) (m : Py World A) : Prop :=
  ∀ w, f (final (m w)) = f w.

(** A computation that logs no finding. *)
Definition silent {A} (m : Py World A) : Prop := ∀ w, logged (m w) = [].

(** The number of deployments among the requests. *)
Definition is_deploy (q : Request) : bool :=
  match q with Deploy _ => true | _ => false end.

Definition deploys (reqs : list Request) : nat :=
  length (filter (λ q, is_deploy q = true) reqs).

(** The value of a plan is no ether, or what a payable function is sent. *)
Definition plan_value_ok (f : FunctionPlan) : Prop :=
  value f = 0 ∨ 10 ^ 15 ≤ value f ≤ 5 * 10 ^ 18.

(** The names of the members [vfs] of a contract that are function
    definitions of kind "function", in order. *)
Definition is_callable (vf : json) : bool :=
  match subscript vf "nodeType" with
  | Ok node_type =>
      eq_str node_type "FunctionDefinition" &&
      match subscript vf "kind" with
      | Ok kind => eq_str kind "function"
      | Raise _ => false
      end
  | Raise _ => false
  end.

Definition member_names (vfs : list json) : list json :=
  omap (λ vf, if is_callable vf
              then match subscript vf "name" with Ok n => Some n | Raise _ => None end
              else None) vfs.

(** The members of [node] when it is a contract definition. *)
Definition contract_members (node : json) : list json :=
  match subscript node "nodeType" with
  | Ok node_type =>
      if eq_str node_type "ContractDefinition" then
        match subscript node "nodes" with
        | Ok members =>
            match py_iter members with Ok vfs => vfs | Raise _ => [] end
        | Raise _ => []
        end
      else []
  | Raise _ => []
  end.

(** The names of the functions of every contract of the tree, in order. *)
Definition declared_functions (ast : json) : list json :=
  match subscript ast "nodes" with
  | Ok nodes =>
      match py_iter nodes with
      | Ok ns => concat (map (λ node, member_names (contract_members node)) ns)
      | Raise _ => []
      end
  | Raise _ => []
  end.

(** The branches of [generate_value], for the type string it has read
    (lemma [generate_value_typed]). *)
Definition value_for (entropy : nat -> Z) (to_checksum_address : string -> string)
    (param_type : json) : Py World PyVal :=
  if eq_str param_type "uint256" || eq_str param_type "uint" then
    let! n := randint entropy 0 (2 ^ 256 - 1) in ret (VInt n)
  else if eq_str param_type "address" then
    let! digits := choices entropy hexdigits 40 in
    ret (VStr (to_checksum_address (String.append "0x" digits)))
  else if eq_str param_type "string" then
    let! k := randint entropy 5 15 in
    let! chars := choices entropy letters k in
    ret (VStr chars)
  else if eq_str param_type "bool" then
    let! b := choice entropy true [true; false] in ret (VBool b)
  else
    match param_type with
    | JStr s =>
        if String.prefix "bytes" s then
          let! size :=
            (if (5 <? String.length s)%nat
             then lift (py_int (str_remove "bytes" 0 s) 10)
             else randint entropy 1 32) in
          let! digits := choices entropy hexdigits (size * 2) in
          ret (VStr (String.append "0x" digits))
        else ret VNone
    | _ => raise AttributeError
    end.

(** An entropy source that is not constant. *)
Definition sample_entropy : nat -> Z := fun k => Z.of_nat k * 7919 - 3.

(** A node on which every transaction reverts, and one that deploys
    nothing. *)
Definition always_reverts (logs : list Instruction) : list Request -> result DebugResult :=
  fun _ => Ok {| failed := true; structLogs := logs |}.
Definition never_deploys : list Request -> option Contract := fun _ => None.

(** ** src/utils/compiler.py and src/main.py *)

(** [[0-9]] *)
Definition is_digit (c : ascii) : bool :=
  let n := Z.of_nat (nat_of_ascii c) in (48 <=? n) && (n <=? 57).

(** The longest run of digits at the head of [l], and what follows it. *)
Fixpoint span_digits (l : list ascii) : list ascii * list ascii :=
  match l with
  | [] => ([], [])
  | c :: r =>
      if is_digit c then let '(d, rest) := span_digits r in (c :: d, rest)
      else ([], l)
  end.

(** What follows [p] at the head of [l], when [p] is there. *)
Fixpoint strip_prefix (p l : list ascii) : option (list ascii) :=
  match p, l with
  | [], _ => Some l
  | a :: p', b :: l' => if Ascii.eqb a b then strip_prefix p' l' else None
  | _ :: _, [] => None
  end.

(** [([0-9]+\.[0-9]+\.[0-9]+);] at the head of [l]: the text of the group.
    Each [[0-9]+] takes the longest run of digits: what has to follow is
    no digit, so a shorter run never matches. *)
Definition match_version (l : list ascii) : option (list ascii) :=
  let '(d1, r1) := span_digits l in
  match d1, r1 with
  | _ :: _, "."%char :: r1' =>
      let '(d2, r2) := span_digits r1' in
      match d2, r2 with
      | _ :: _, "."%char :: r2' =>
          let '(d3, r3) := span_digits r2' in
          match d3, r3 with
          | _ :: _, ";"%char :: _ => Some (d1 ++ "."%char :: d2 ++ "."%char :: d3)
          | _, _ => None
          end
      | _, _ => None
      end
  | _, _ => None
  end.

(** What [(\^?|>=?|<=?)?] may take, in the order in which the matcher
    tries it: the caret or nothing, then ">=" or ">", then "<=" or "<". *)
Definition operators : list (list ascii) :=
  [ ["^"%char]; []; [">"%char; "="%char]; [">"%char];
    ["<"%char; "="%char]; ["<"%char] ].

Fixpoint first_match (ops : list (list ascii)) (l : list ascii)
    : option (list ascii) :=
  match ops with
  | [] => None
  | o :: rest =>
      match strip_prefix o l with
      | Some r =>
          match match_version r with
          | Some v => Some v
          | None => first_match rest l
          end
      | None => first_match rest l
      end
  end.

Definition pragma_header : list ascii := list_ascii_of_string "pragma solidity ".

(** The pattern of [compile_smart_contract] at the head of [l]. *)
Definition match_pragma (l : list ascii) : option (list ascii) :=
  match strip_prefix pragma_header l with
  | Some r => first_match operators r
  | None => None
  end.

(** [re.search]: the match at the first position that has one. *)
Fixpoint search_pragma (l : list ascii) : option (list ascii) :=
  match match_pragma l with
  | Some v => Some v
  | None => match l with [] => None | _ :: r => search_pragma r end
  end.

(** [pragma_match.group(2)], or [None] without a match. *)
Definition pragma_version (source_code : string) : option string :=
  string_of_list_ascii <$> search_pragma (list_ascii_of_string source_code).

(** Digits, a dot, digits, a dot, digits. *)
Definition version_shape (v : list ascii) : Prop :=
  ∃ d1 d2 d3,
    v = d1 ++ "."%char :: d2 ++ "."%char :: d3 ∧
    d1 ≠ [] ∧ d2 ≠ [] ∧ d3 ≠ [] ∧
    Forall (λ c, is_digit c = true) d1 ∧
    Forall (λ c, is_digit c = true) d2 ∧
    Forall (λ c, is_digit c = true) d3.

(** A text of ASCII characters only. An argument of the command line is
    a text in its UTF-8 bytes. *)
Definition is_ascii_text (s : string) : bool :=
  forallb (fun c => Z.of_nat (nat_of_ascii c) <? 128) (list_ascii_of_string s).

(** How the program ends: normally, with one of the two exceptions that
    [main] and the connection raise themselves, or with an exception of
    the code below them that nothing catches. *)
Inductive Exit : Set :=
  | Finished
  | IncorrectArguments
  | ConnectionError
  | Uncaught (e : PyExc).

(** What [Web3(Web3.HTTPProvider(rpc_url))] gives: no connection, or a
    node with its accounts. *)
Inductive Connection : Set :=
  | Refused
  | Connected (accounts : list string).

Section Program.

Variable entropy : nat -> Z.
Variable to_checksum_address : string -> string.
Variable node_deploys : list Request -> option Contract.
Variable node_transacts : list Request -> option TxReceipt.
Variable node_traces : list Request -> result DebugResult.
(** [open(contract_path, 'r').read()]; [None] when it raises. *)
Variable read_file : string -> option string.
(** solcx at a version on a source: the values of the compiler's output,
    in its order; [None] when installing, selecting or compiling raises. *)
Variable solc : string -> string -> option (list json).
Variable connect : string -> Connection.
(** [int] on a text with characters beyond ASCII, where it goes by the
    character database of the interpreter: the decimal digits and the
    white space of every script count. *)
Variable unicode_int : string -> result Z.

(** [int(s)] for a text of the command line. *)
Definition int_of_text (s : string) : result Z :=
  if is_ascii_text s then py_int s 10 else unicode_int s.

(** The [try] of [main]: the path of the contract, the number of test
    cases and the RPC URL, or [None] for the exception it raises. *)
Definition parse_args (argv : list string) : option (string * Z * string) :=
  match py_getitem argv 1 with
  | Ok contract_path =>
      match py_getitem argv 2 with
      | Ok count =>
          match int_of_text count with
          | Ok test_cases =>
              match py_getitem argv 3 with
              | Ok rpc_url => Some (contract_path, test_cases, rpc_url)
              | Raise _ => None
              end
          | Raise _ => None
          end
      | Raise _ => None
      end
  | Raise _ => None
  end.

(** [compile_smart_contract]: [JNull] is the [None] of the [except]. *)
Definition compile_smart_contract (contract_path : string) : result json :=
  match read_file contract_path with
  | None => Ok JNull
  | Some source_code =>
      match pragma_version source_code with
      | None => Ok JNull
      | Some compiler_version =>
          match solc compiler_version source_code with
          | None => Ok JNull
          | Some compiler_output => py_getitem compiler_output 0
          end
      end
  end.

(** [BlockchainConnection.__init__] *)
Definition connection (rpc_url : string) : Exit + unit :=
  match connect rpc_url with
  | Connected accounts =>
      match py_getitem accounts 0 with
      | Ok _ => inr tt
      | Raise e => inl (Uncaught e)
      end
  | Refused => inl ConnectionError
  end.

(** The [abi], [bin] and [ast] that [main] takes from the output, in this
    order; the syntax tree is what the fuzzer goes on with. *)
Definition artifacts (output : json) : result json :=
  match subscript output "abi" with
  | Ok _ =>
      match subscript output "bin" with
      | Ok _ => subscript output "ast"
      | Raise e => Raise e
      end
  | Raise e => Raise e
  end.

(** The script of [main.py], from the arguments of the command line. *)
Definition main (argv : list string) : Exit * World * list Finding :=
  match parse_args argv with
  | None => (IncorrectArguments, new_world, [])
  | Some (contract_path, test_cases, rpc_url) =>
      match compile_smart_contract contract_path with
      | Raise e => (Uncaught e, new_world, [])
      | Ok output =>
          match artifacts output with
          | Raise e => (Uncaught e, new_world, [])
          | Ok ast =>
              match connection rpc_url with
              | inl exit => (exit, new_world, [])
              | inr _ =>
                  let '(r, w, findings) :=
                    run entropy to_checksum_address node_deploys
                      node_transacts node_traces ast test_cases new_world in
                  (match r with Ok _ => Finished | Raise e => Uncaught e end,
                   w, findings)
              end
          end
      end
  end.

(** The file cannot be read, or no version is found in it, or compiling
    it at that version fails. *)
Definition not_compilable (contract_path : string) : Prop :=
  match read_file contract_path with
  | None => True
  | Some source_code =>
      match pragma_version source_code with
      | None => True
      | Some compiler_version => solc compiler_version source_code = None
      end
  end.

End Program.

(** A file system with one contract, a compiler that returns a fixed
    output, and a node with one account. *)
Definition sample_source : string :=
  "// SPDX-License-Identifier: MIT pragma solidity ^0.8.20; contract Bank {}".
Definition range_source : string :=
  "pragma solidity >=0.4.22 <0.9.0; contract Bank {}".
Definition one_file (source_code : string) : string -> option string :=
  fun path => if bool_decide (path = "Bank.sol") then Some source_code else None.
Definition sample_solc (output : json) : string -> string -> option (list json) :=
  fun version _ =>
    if bool_decide (version = "0.8.20") then Some [output] else None.
Definition sample_output (ast : json) : json :=
  JDict [("abi", JList []); ("bin", JStr "6080"); ("ast", ast)].
Definition one_account : string -> Connection :=
  fun _ => Connected ["0xa11ce"].
(** An interpreter for which the only digit beyond ASCII is the fullwidth
    digit three. *)
Definition fullwidth_three : string :=
  String (ascii_of_nat 239) (String (ascii_of_nat 188)
    (String (ascii_of_nat 147) EmptyString)).
Definition sample_unicode_int : string -> result Z :=
  fun s => if bool_decide (s = fullwidth_three) then Ok 3 else Raise ValueError.

(** A node on which every trace that comes back is that of a reverted
    transaction. *)
Definition reverting (node_traces : list Request -> result DebugResult) : Prop :=
  ∀ history result, node_traces history = Ok result → failed result = true.

(** * Properties *)

(** ** The builtins *)

Example py_int_gas : py_int "0x5208" 16 = Ok 21000.
Proof. reflexivity. Qed.
Example py_int_bare : py_int " -ff " 16 = Ok (-255).
Proof. reflexivity. Qed.
Example py_int_sep : py_int "0x_1_0" 16 = Ok 16.
Proof. reflexivity. Qed.
Example py_int_empty : py_int "0x" 16 = Raise ValueError.
Proof. reflexivity. Qed.
Example py_int_word : py_int "32[]" 10 = Raise ValueError.
Proof. reflexivity. Qed.
Example py_getitem_last : py_getitem ["a"; "b"; "c"] (-1) = Ok "c".
Proof. reflexivity. Qed.
Example py_getitem_third : py_getitem ["a"; "b"] (-3) = Raise IndexError.
Proof. reflexivity. Qed.

(** ** The monad *)

Lemma bind_Ok {S A B} (m : Py S A) (k : A -> Py S B) s a s1 l1 :
  m s = (Ok a, s1, l1) →
  bind m k s = ((k a s1).1.1, (k a s1).1.2, l1 ++ (k a s1).2).
Proof. intros H. unfold bind. rewrite H. by destruct (k a s1) as [[??]?]. Qed.

Lemma bind_Raise {S A B} (m : Py S A) (k : A -> Py S B) s e s1 l1 :
  m s = (Raise e, s1, l1) → bind m k s = (Raise e, s1, l1).
Proof. intros H. unfold bind. by rewrite H. Qed.

Lemma bind_assoc {S A B C} (m : Py S A) (f : A -> Py S B) (g : B -> Py S C) s :
  bind (bind m f) g s = bind m (fun a => bind (f a) g) s.
Proof.
  unfold bind. destruct (m s) as [[[a|e] s1] l1]; [|done].
  destruct (f a s1) as [[[b|e] s2] l2]; [|done].
  destruct (g b s2) as [[r s3] l3]. by rewrite app_assoc.
Qed.

Lemma bind_ext {S A B} (m : Py S A) (f g : A -> Py S B) s :
  (∀ a s', f a s' = g a s') → bind m f s = bind m g s.
Proof.
  intros H. unfold bind. destruct (m s) as [[[a|e] s1] l1]; [|done].
  by rewrite H.
Qed.

Lemma bind_ret_l {S A B} (a : A) (k : A -> Py S B) s : bind (ret a) k s = k a s.
Proof. unfold bind, ret. by destruct (k a s) as [[??]?]. Qed.

Lemma for_each_app {S A} (xs ys : list A) (body : A -> Py S unit) s :
  for_each (xs ++ ys) body s
  = bind (for_each xs body) (fun _ => for_each ys body) s.
Proof.
  revert s. induction xs as [|x xs IH]; intros s; simpl.
  - by rewrite bind_ret_l.
  - rewrite bind_assoc. apply bind_ext. intros _ s'. apply IH.
Qed.

(** ** The detector, one instruction at a time *)

Lemma scan_sloads_spec ipc pcs s :
  Detector.scan_sloads ipc pcs s
  = if existsb (λ p, p <? ipc) pcs
    then (Ok tt, set_flag true s, [SCWE_046])
    else (Ok tt, s, []).
Proof.
  induction pcs as [|p pcs IH]; simpl; [done|].
  destruct (p <? ipc); simpl; [done|]. apply IH.
Qed.

Lemma scan_calls_spec ipc pcs s :
  Detector.scan_calls ipc pcs s
  = (Ok tt, s,
     if existsb (λ p, p <? ipc) pcs && negb (flag s) then [SCWE_046] else []).
Proof.
  induction pcs as [|p pcs IH]; simpl; [done|].
  unfold bind, get. destruct (p <? ipc) eqn:Hp; simpl.
  - destruct (flag s) eqn:Hf; simpl.
    + rewrite IH. by rewrite andb_false_r.
    + by unfold critical.
  - rewrite IH. by destruct (_ && _).
Qed.

Lemma reentrancy_step_eq i s : Detector.reentrancy i s = reentrancy_step i s.
Proof.
  unfold Detector.reentrancy, reentrancy_step, call_gas, call_value.
  unfold bind at 1. unfold get at 1.
  destruct (bool_decide (op i = "SLOAD")).
  { destruct (py_getitem (stack i) (-1)) as [slot|e]; reflexivity. }
  destruct (bool_decide (op i = "CALL") && bool_decide (sloads s ≠ ∅)).
  { destruct (py_getitem (stack i) (-1)) as [top|e]; [|reflexivity].
    unfold bind at 1. simpl.
    destruct (py_int top 16) as [g|e]; [|reflexivity].
    unfold bind at 1. simpl.
    destruct (py_getitem (stack i) (-3)) as [third|e]; [|reflexivity].
    unfold bind at 1. simpl.
    destruct (py_int third 16) as [v|e]; [|reflexivity].
    unfold bind at 1. simpl.
    destruct ((2300 <? g) && (0 <? v)); [|reflexivity].
    unfold bind, modify. rewrite scan_sloads_spec.
    by destruct (existsb _ _). }
  destruct (bool_decide (op i = "SSTORE") && bool_decide (calls s ≠ ∅)).
  { destruct (py_getitem (stack i) (-1)) as [slot|e]; [|reflexivity].
    unfold bind. simpl.
    destruct (bool_decide (is_Some (sloads s !! slot))); simpl.
    - rewrite scan_calls_spec. by destruct (_ && _).
    - reflexivity. }
  reflexivity.
Qed.

Lemma tx_origin_step i s :
  Detector.tx_origin i s
  = (Ok tt, s, if bool_decide (op i = "ORIGIN") then [SCWE_018] else []).
Proof. unfold Detector.tx_origin. by destruct (bool_decide _). Qed.

Lemma scan_instruction_step i s :
  scan_instruction i s
  = match reentrancy_step i s with
    | (Ok _, s1, l1) =>
        (Ok tt, s1, l1 ++ if bool_decide (op i = "ORIGIN") then [SCWE_018] else [])
    | (Raise e, s1, l1) => (Raise e, s1, l1)
    end.
Proof.
  unfold scan_instruction, bind. rewrite reentrancy_step_eq.
  destruct (reentrancy_step i s) as [[[[]|e] s1] l1]; [|done].
  by rewrite tx_origin_step.
Qed.

Lemma existsb_reads s ipc :
  existsb (λ p, p <? ipc) (map_to_list (sloads s)).*2 = true ↔ read_before s ipc.
Proof.
  rewrite existsb_exists. unfold read_before. split.
  - intros (p & Hin & Hlt). apply list_elem_of_In in Hin.
    apply list_elem_of_fmap in Hin as ([slot p'] & -> & Hin).
    apply elem_of_map_to_list in Hin. exists slot, p'. split; [done|].
    simpl in Hlt. lia.
  - intros (slot & p & Hin & Hlt). exists p. split; [|lia].
    apply list_elem_of_In, list_elem_of_fmap. exists (slot, p). split; [done|].
    by apply elem_of_map_to_list.
Qed.

Lemma existsb_calls s ipc :
  existsb (λ p, p <? ipc) (elements (calls s)) = true ↔ call_before s ipc.
Proof.
  rewrite existsb_exists. unfold call_before. split.
  - intros (p & Hin & Hlt). exists p. split; [|lia].
    by apply elem_of_elements, list_elem_of_In.
  - intros (p & Hin & Hlt). exists p. split; [|lia].
    by apply list_elem_of_In, elem_of_elements.
Qed.

Lemma read_before_nonempty s ipc : read_before s ipc → sloads s ≠ ∅.
Proof. intros (slot & p & Hin & _) Hempty. rewrite Hempty in Hin. done. Qed.

Lemma reentrancy_log_cases i s :
  logged (reentrancy_step i s) = [] ∨ logged (reentrancy_step i s) = [SCWE_046].
Proof.
  unfold reentrancy_step, logged.
  repeat (case_match; simpl; auto).
Qed.

Lemma py_getitem_top {A} (l : list A) :
  l ≠ [] → ∃ x, py_getitem l (-1) = Ok x.
Proof.
  intros Hl. unfold py_getitem. simpl.
  assert (0 < length l)%nat by (destruct l; [done|simpl; lia]).
  destruct (_ || _) eqn:Hb; [lia|].
  destruct (l !! Z.to_nat (-1 + Z.of_nat (length l))) as [x|] eqn:Hx; [eauto|].
  apply lookup_ge_None in Hx. lia.
Qed.

Lemma analyse_logged tr s : logged (analyse tr s) = logged (feed tr s).
Proof.
  unfold analyse, bind, logged.
  destruct (feed tr s) as [[[[]|e] s1] l1]; simpl; [|done].
  by rewrite app_nil_r.
Qed.

Lemma count_finding_app f l1 l2 :
  count_finding f (l1 ++ l2) = (count_finding f l1 + count_finding f l2)%nat.
Proof. apply count_occ_app. Qed.

Lemma feed_cons i tr s :
  feed (i :: tr) s = bind (scan_instruction i) (fun _ => feed tr) s.
Proof. reflexivity. Qed.

(** ** Sample traces *)

(** A read at pc 10, then a risky call at pc 20: one finding. *)
Example read_then_risky_call :
  analyse [sload_at 10 "0x0"; call_at 20 "0x5208" "0xde0b6b3a7640000"]
    Detector.__init__
  = (Ok tt, Detector.__init__, [SCWE_046]).
Proof. by vm_compute. Qed.

(** The same, then a write at pc 30 on the slot read: the call has set the
    latch and the write adds nothing. *)
Example read_call_write :
  logged (analyse [sload_at 10 "0x0"; call_at 20 "0x5208" "0xde0b6b3a7640000";
                   sstore_at 30 "0x0"] Detector.__init__)
  = [SCWE_046].
Proof. by vm_compute. Qed.

(** The call comes first in the code, the read was made at a higher pc: the
    call is recorded without a finding, and the write reports. *)
Example write_reports_when_call_did_not :
  logged (analyse [sload_at 50 "0x0"; call_at 20 "0x5208" "0xde0b6b3a7640000";
                   sstore_at 60 "0x0"] Detector.__init__)
  = [SCWE_046].
Proof. by vm_compute. Qed.

(** A call before any read is not looked at: its stack may even be empty. *)
Example call_before_any_read :
  analyse [{| op := "CALL"; pc := 5; stack := [] |}] Detector.__init__
  = (Ok tt, Detector.__init__, []).
Proof. by vm_compute. Qed.

Example origin_three_times :
  logged (analyse [origin_at 1; sload_at 2 "0x0"; origin_at 3; origin_at 4]
            Detector.__init__)
  = [SCWE_018; SCWE_018; SCWE_018].
Proof. by vm_compute. Qed.

(** ** Opcodes that no rule handles *)

(** C10. An instruction whose opcode is none of SLOAD, CALL, SSTORE and
    ORIGIN goes through both rules without a finding and leaves the read
    map, the set of risky calls and the latch as they were. *)
Theorem other_opcode_changes_nothing (i : Instruction) (s : VulnerabilityDetector) :
  op i ≠ "SLOAD" → op i ≠ "CALL" → op i ≠ "SSTORE" → op i ≠ "ORIGIN" →
  Detector.reentrancy i s = (Ok tt, s, []) ∧
  Detector.tx_origin i s = (Ok tt, s, []) ∧
  scan_instruction i s = (Ok tt, s, []).
Proof.
  intros H1 H2 H3 H4.
  assert (Hr : reentrancy_step i s = (Ok tt, s, [])).
  { unfold reentrancy_step. by repeat (case_bool_decide; simpl; try done). }
  rewrite reentrancy_step_eq, scan_instruction_step, tx_origin_step, Hr.
  by case_bool_decide.
Qed.

Lemma other_opcode_changes_nothing_witness :
  scan_instruction {| op := "PUSH1"; pc := 7; stack := ["0x80"] |}
    (record_read "0x0" 3 Detector.__init__)
  = (Ok tt, record_read "0x0" 3 Detector.__init__, []).
Proof.
  apply (other_opcode_changes_nothing
           {| op := "PUSH1"; pc := 7; stack := ["0x80"] |}); discriminate.
Defined.

(** ** Reset *)

(** C8. Whatever the detector holds, [reset_variables] leaves it as
    [__init__] builds it, so a trace analysed after a reset gives what it
    gives on a new detector: same outcome, same findings. *)
Theorem reset_gives_new_detector (s : VulnerabilityDetector) (tr : list Instruction) :
  Detector.reset_variables s = (Ok tt, Detector.__init__, []) ∧
  feed tr (final (Detector.reset_variables s)) = feed tr Detector.__init__ ∧
  analyse tr (final (Detector.reset_variables s)) = analyse tr Detector.__init__.
Proof. done. Qed.

(** ** The tx.origin rule *)

Lemma reentrancy_origin i s :
  op i = "ORIGIN" → reentrancy_step i s = (Ok tt, s, []).
Proof.
  intros Ho. unfold reentrancy_step.
  by repeat (case_bool_decide; simpl; try congruence).
Qed.

Lemma tx_origin_trace tr s :
  for_each tr Detector.tx_origin s
  = (Ok tt, s, repeat SCWE_018 (origin_count tr)).
Proof.
  induction tr as [|i tr IH]; [done|].
  simpl. unfold bind. rewrite tx_origin_step, IH.
  unfold origin_count. rewrite filter_cons.
  case_bool_decide; by case_decide.
Qed.





(** ** Calls that are not risky *)

Lemma scan_harmless i s :
  calls s = ∅ → harmless i →
  calls (final (scan_instruction i s)) = ∅ ∧
  count_finding SCWE_046 (logged (scan_instruction i s)) = 0%nat.
Proof.
  intros Hc Hi. rewrite scan_instruction_step.
  assert (Hstep : calls (final (reentrancy_step i s)) = ∅
                  ∧ logged (reentrancy_step i s) = []).
  { unfold reentrancy_step.
    case_bool_decide as Hsload; simpl.
    { by destruct (py_getitem (stack i) (-1)). }
    case_bool_decide as Hcall; simpl.
    { case_bool_decide as Hreads; simpl.
      - destruct (call_gas i) as [g|e] eqn:Hg; [|done].
        destruct (call_value i) as [v|e] eqn:Hv; [|done].
        destruct (Hi Hcall g v Hg Hv) as [Hle|Hz].
        + by replace (2300 <? g) with false by lia.
        + replace (0 <? v) with false by lia. by rewrite andb_false_r.
      - by repeat (case_bool_decide; simpl). }
    case_bool_decide as Hsstore; simpl; [|done].
    by rewrite bool_decide_eq_false_2 by (intros Hne; by apply Hne). }
  destruct Hstep as [Hcalls Hlog].
  destruct (reentrancy_step i s) as [[[[]|e] s1] l1];
    unfold final, logged in *; simpl in *; subst l1; [|done].
  split; [done|]. by case_bool_decide.
Qed.

Lemma feed_harmless tr : ∀ s,
  calls s = ∅ → (∀ i, i ∈ tr → harmless i) →
  calls (final (feed tr s)) = ∅ ∧
  count_finding SCWE_046 (logged (feed tr s)) = 0%nat.
Proof.
  induction tr as [|i tr IH]; intros s Hc Hall; [done|].
  rewrite feed_cons. unfold bind.
  destruct (scan_harmless i s Hc) as [Hc1 Hl1].
  { apply Hall. by left. }
  destruct (scan_instruction i s) as [[[[]|e] s1] l1];
    unfold final, logged in *; simpl in *; [|done].
  destruct (IH s1 Hc1) as [Hc2 Hl2].
  { intros j Hj. apply Hall. by right. }
  destruct (feed tr s1) as [[r s2] l2]; simpl in *.
  by rewrite count_finding_app, Hl1, Hl2.
Qed.

(** C6. When every CALL of a trace has a gas of at most 2300 or a value
    of 0, analysing the trace logs no SCWE-046, whatever storage reads and
    writes stand before or after the calls. *)
Theorem harmless_calls_never_reported (tr : list Instruction) :
  (∀ i, i ∈ tr → op i = "CALL" →
        ∀ g v, call_gas i = Ok g → call_value i = Ok v → g ≤ 2300 ∨ v = 0) →
  count_finding SCWE_046 (logged (analyse tr Detector.__init__)) = 0%nat.
Proof.
  intros Hall. rewrite analyse_logged.
  by apply (feed_harmless tr Detector.__init__).
Qed.

Lemma harmless_calls_never_reported_witness :
  count_finding SCWE_046 (logged (analyse harmless_trace Detector.__init__)) = 0%nat.
Proof.
  apply (harmless_calls_never_reported harmless_trace).
  intros i Hi Hop g v Hg Hv.
  unfold harmless_trace in Hi.
  repeat (apply elem_of_cons in Hi as [->|Hi]); try discriminate Hop.
  - vm_compute in Hv. right. congruence.
  - vm_compute in Hg. left. injection Hg as <-. lia.
  - by apply elem_of_nil in Hi.
Defined.

(** ** Stacks that are too short *)

Lemma scan_has_operands i s :
  has_operands i → outcome (scan_instruction i s) = Ok tt.
Proof.
  intros (Hsload & Hsstore & Hcall). rewrite scan_instruction_step.
  assert (Hstep : outcome (reentrancy_step i s) = Ok tt).
  { unfold reentrancy_step.
    case_bool_decide as H1; simpl.
    { destruct (py_getitem_top (stack i) (Hsload H1)) as [x ->]. done. }
    case_bool_decide as H2; simpl.
    { destruct (Hcall H2) as [Hg Hv].
      destruct (call_gas i); [|done]. destruct (call_value i); [|done].
      case_bool_decide; simpl; [by repeat (case_match; simpl)|].
      rewrite (bool_decide_eq_false_2 (op i = "SSTORE")) by congruence.
      done. }
    case_bool_decide as H3; simpl; [|done].
    destruct (py_getitem_top (stack i) (Hsstore H3)) as [x ->].
    by repeat (case_match; simpl). }
  destruct (reentrancy_step i s) as [[[[]|e] s1] l1]; done.
Qed.

(** A storage read without operand raises, whatever the state. *)
Lemma sload_without_operand i s :
  op i = "SLOAD" → stack i = [] →
  scan_instruction i s = (Raise IndexError, s, []).
Proof.
  intros Hop Hst. rewrite scan_instruction_step. unfold reentrancy_step.
  rewrite bool_decide_eq_true_2 by done. by rewrite Hst.
Qed.

(** C5, as stated, fails: a storage read with an empty stack raises
    [IndexError]; the exception leaves the loop over the trace, and the
    ORIGIN instruction behind it is never scanned. *)
Lemma truncated_sload_aborts_scan :
  scan_instruction truncated_sload Detector.__init__
  = (Raise IndexError, Detector.__init__, []) ∧
  feed [truncated_sload; origin_at 2] Detector.__init__
  = (Raise IndexError, Detector.__init__, []) ∧
  ¬ (∀ i s, outcome (scan_instruction i s) = Ok tt).
Proof.
  split; [reflexivity|]. split; [reflexivity|].
  intros H. specialize (H truncated_sload Detector.__init__). discriminate H.
Qed.

(** C5, amended. When the stack of every instruction holds what the rule of
    its opcode reads (one operand for SLOAD and SSTORE; for CALL a top and
    a third from the top that [int(_, 16)] accepts), no instruction raises
    and the loop reaches the end of the trace. *)
Theorem complete_stacks_never_raise (tr : list Instruction) (s : VulnerabilityDetector) :
  Forall has_operands tr →
  outcome (feed tr s) = Ok tt ∧
  ∀ i s', i ∈ tr → outcome (scan_instruction i s') = Ok tt.
Proof.
  intros Hall. split.
  - revert s. induction Hall as [|i tr Hi Hall IH]; intros s; [done|].
    rewrite feed_cons. unfold bind.
    pose proof (scan_has_operands i s Hi) as Hok.
    destruct (scan_instruction i s) as [[[[]|e] s1] l1]; [|done].
    specialize (IH s1). by destruct (feed tr s1) as [[r s2] l2].
  - intros i s' Hin. apply scan_has_operands.
    rewrite Forall_forall in Hall. by apply Hall.
Qed.

Lemma complete_stacks_never_raise_witness :
  outcome (feed two_risky_calls Detector.__init__) = Ok tt.
Proof.
  apply (complete_stacks_never_raise two_risky_calls Detector.__init__).
  unfold two_risky_calls.
  unfold two_risky_calls.
  repeat (apply Forall_cons_2;
          [split; [|split]; intros Hop; try discriminate Hop; done|]).
  apply Forall_nil_2.
Defined.

(** ** The call branch of the reentrancy rule *)

Lemma qualifying_call_step s i :
  qualifying_call s i →
  reentrancy_step i s = (Ok tt, set_flag true (add_call (pc i) s), [SCWE_046]).
Proof.
  intros (Hop & (g & v & Hg & Hv & Hgas & Hval) & Hread).
  unfold reentrancy_step.
  rewrite (bool_decide_eq_false_2 (op i = "SLOAD")) by congruence.
  rewrite (bool_decide_eq_true_2 (op i = "CALL")) by done.
  rewrite bool_decide_eq_true_2 by (by eapply read_before_nonempty).
  simpl. rewrite Hg, Hv.
  replace (2300 <? g) with true by lia. replace (0 <? v) with true by lia.
  simpl. apply existsb_reads in Hread. by rewrite Hread.
Qed.

Lemma reentrancy_keeps_flag i s :
  flag s = true → flag (final (reentrancy_step i s)) = true.
Proof.
  intros Hf. unfold reentrancy_step, final.
  repeat (case_match; simpl; try done).
Qed.

Lemma scan_keeps_flag i s :
  flag s = true → flag (final (scan_instruction i s)) = true.
Proof.
  intros Hf. rewrite scan_instruction_step.
  pose proof (reentrancy_keeps_flag i s Hf) as H.
  by destruct (reentrancy_step i s) as [[[[]|e] s1] l1].
Qed.

Lemma feed_keeps_flag tr : ∀ s,
  flag s = true → flag (final (feed tr s)) = true.
Proof.
  induction tr as [|i tr IH]; intros s Hf; [done|].
  rewrite feed_cons. unfold bind.
  pose proof (scan_keeps_flag i s Hf) as H1.
  destruct (scan_instruction i s) as [[[[]|e] s1] l1]; [|done].
  specialize (IH s1 H1). by destruct (feed tr s1) as [[r s2] l2].
Qed.

Lemma sstore_silent_when_flagged j s :
  flag s = true → op j = "SSTORE" → logged (scan_instruction j s) = [].
Proof.
  intros Hf Hop. rewrite scan_instruction_step. unfold reentrancy_step.
  rewrite (bool_decide_eq_false_2 (op j = "SLOAD")) by congruence.
  rewrite (bool_decide_eq_false_2 (op j = "CALL")) by congruence.
  rewrite (bool_decide_eq_false_2 (op j = "ORIGIN")) by congruence.
  rewrite Hf. simpl.
  destruct (bool_decide (op j = "SSTORE") && bool_decide (calls s ≠ ∅)); [|done].
  destruct (py_getitem (stack j) (-1)); [|done].
  by rewrite andb_false_r.
Qed.

(** C1, as stated, fails: in a trace with a read at pc 10 and risky calls
    at pc 20 and pc 30, both calls qualify and both report; SCWE-046 is
    logged twice, not once. *)
Lemma second_risky_call_reports_again :
  logged (feed two_risky_calls Detector.__init__) = [SCWE_046; SCWE_046] ∧
  ¬ (∀ pre c post,
       outcome (feed pre Detector.__init__) = Ok tt →
       qualifying_call (final (feed pre Detector.__init__)) c →
       count_finding SCWE_046
         (logged (feed (pre ++ c :: post) Detector.__init__)) = 1%nat).
Proof.
  split; [by vm_compute|].
  intros H.
  assert (Hq : qualifying_call
                 (final (feed [sload_at 10 "0x0"] Detector.__init__))
                 (call_at 20 "0x5208" "0xde0b6b3a7640000")).
  { split; [reflexivity|]. split.
    - exists 21000, 1000000000000000000. by vm_compute.
    - apply existsb_reads. by vm_compute. }
  assert (Hok : outcome (feed [sload_at 10 "0x0"] Detector.__init__) = Ok tt)
    by (by vm_compute).
  pose proof (H [sload_at 10 "0x0"]
                (call_at 20 "0x5208" "0xde0b6b3a7640000")
                [call_at 30 "0x5208" "0xde0b6b3a7640000"] Hok Hq) as Habs.
  vm_compute in Habs. discriminate Habs.
Qed.

(** C1, amended. In a state where some recorded read has a pc below that of
    a CALL with gas above 2300 and a positive value, the call logs SCWE-046
    exactly once, joins the risky calls and sets the latch, whether or not
    the latch was set before: every such call of a trace reports. From
    then on the latch stays set to the end of the trace, and no SSTORE
    reports. *)
Theorem risky_call_after_read_reports (s : VulnerabilityDetector) (i : Instruction) :
  qualifying_call s i →
  Detector.reentrancy i s
  = (Ok tt, set_flag true (add_call (pc i) s), [SCWE_046]) ∧
  ∀ rest j,
    let s' := final (feed rest (set_flag true (add_call (pc i) s))) in
    flag s' = true ∧
    (op j = "SSTORE" → logged (scan_instruction j s') = []).
Proof.
  intros Hq. split.
  - rewrite reentrancy_step_eq. by apply qualifying_call_step.
  - intros rest j s'.
    assert (Hf : flag s' = true) by (by apply feed_keeps_flag).
    split; [done|]. intros Hop. by apply sstore_silent_when_flagged.
Qed.

Lemma risky_call_after_read_reports_witness :
  Detector.reentrancy (call_at 30 "0x5208" "0xde0b6b3a7640000")
    (final (feed [sload_at 10 "0x0"; call_at 20 "0x5208" "0xde0b6b3a7640000"]
              Detector.__init__))
  = (Ok tt,
     set_flag true (add_call 30
       (final (feed [sload_at 10 "0x0"; call_at 20 "0x5208" "0xde0b6b3a7640000"]
                 Detector.__init__))),
     [SCWE_046]).
Proof.
  apply (risky_call_after_read_reports
           (final (feed [sload_at 10 "0x0";
                         call_at 20 "0x5208" "0xde0b6b3a7640000"]
                     Detector.__init__))
           (call_at 30 "0x5208" "0xde0b6b3a7640000")).
  split; [reflexivity|]. split.
  - exists 21000, 1000000000000000000. by vm_compute.
  - apply existsb_reads. by vm_compute.
Defined.

(** ** The write branch of the reentrancy rule *)

Lemma sstore_step s i slot :
  op i = "SSTORE" → calls s ≠ ∅ →
  py_getitem (stack i) (-1) = Ok slot → is_Some (sloads s !! slot) →
  reentrancy_step i s
  = (Ok tt, s,
     if bool_decide (call_before s (pc i)) && negb (flag s)
     then [SCWE_046] else []).
Proof.
  intros Hop Hcalls Hslot Hread. unfold reentrancy_step.
  rewrite (bool_decide_eq_false_2 (op i = "SLOAD")) by congruence.
  rewrite (bool_decide_eq_false_2 (op i = "CALL")) by congruence.
  rewrite (bool_decide_eq_true_2 (op i = "SSTORE")) by done.
  rewrite (bool_decide_eq_true_2 (calls s ≠ ∅)) by done.
  simpl. rewrite Hslot.
  rewrite (bool_decide_eq_true_2 (is_Some _)) by done. simpl.
  do 2 f_equal.
  destruct (existsb _ _) eqn:Hex.
  - apply existsb_calls in Hex. by rewrite bool_decide_eq_true_2.
  - rewrite bool_decide_eq_false_2; [done|].
    intros Hcb. apply existsb_calls in Hcb. congruence.
Qed.

(** C2, as stated, fails: after a read at pc 50 and risky calls at pc 20 and
    pc 30, the latch is clear and both call pcs are below an SSTORE at
    pc 60 on the slot read; the write logs SCWE-046 once, not twice. *)
Lemma sstore_reports_once_for_two_calls :
  outcome (feed calls_below_read Detector.__init__) = Ok tt ∧
  flag (final (feed calls_below_read Detector.__init__)) = false ∧
  calls_before (final (feed calls_below_read Detector.__init__)) 60 = 2%nat ∧
  logged (Detector.reentrancy (sstore_at 60 "0x0")
            (final (feed calls_below_read Detector.__init__))) = [SCWE_046] ∧
  ¬ (∀ s i slot,
       op i = "SSTORE" → calls s ≠ ∅ →
       py_getitem (stack i) (-1) = Ok slot → is_Some (sloads s !! slot) →
       flag s = false →
       count_finding SCWE_046 (logged (Detector.reentrancy i s))
       = calls_before s (pc i)).
Proof.
  split; [by vm_compute|]. split; [by vm_compute|].
  split; [by vm_compute|]. split; [by vm_compute|].
  intros H.
  assert (Hcalls : calls (final (feed calls_below_read Detector.__init__)) ≠ ∅).
  { apply (bool_decide_unpack _). by vm_compute. }
  assert (Hread : is_Some
            (sloads (final (feed calls_below_read Detector.__init__)) !! "0x0")).
  { apply (bool_decide_unpack _). by vm_compute. }
  assert (Hflag : flag (final (feed calls_below_read Detector.__init__)) = false)
    by (by vm_compute).
  pose proof (H (final (feed calls_below_read Detector.__init__))
                (sstore_at 60 "0x0") "0x0" eq_refl Hcalls eq_refl Hread Hflag)
    as Habs.
  vm_compute in Habs. discriminate Habs.
Qed.

(** C2, amended. An SSTORE that arrives once a risky call is recorded, on a
    slot present in the recorded reads, logs SCWE-046 once if the latch is
    clear and some recorded risky call has a pc below that of the write,
    and nothing otherwise: one finding per write at most, however many
    calls are below it. The branch changes nothing in the detector; in
    particular it never sets the latch. *)
Theorem sstore_reports_at_most_once (s : VulnerabilityDetector) (i : Instruction)
    (slot : string) :
  op i = "SSTORE" → calls s ≠ ∅ →
  py_getitem (stack i) (-1) = Ok slot → is_Some (sloads s !! slot) →
  Detector.reentrancy i s
  = (Ok tt, s,
     if bool_decide (call_before s (pc i)) && negb (flag s)
     then [SCWE_046] else []).
Proof.
  intros Hop Hcalls Hslot Hread.
  rewrite reentrancy_step_eq. by apply sstore_step with slot.
Qed.

Lemma sstore_reports_at_most_once_witness :
  Detector.reentrancy (sstore_at 60 "0x0")
    (final (feed calls_below_read Detector.__init__))
  = (Ok tt, final (feed calls_below_read Detector.__init__), [SCWE_046]).
Proof.
  rewrite (sstore_reports_at_most_once
             (final (feed calls_below_read Detector.__init__))
             (sstore_at 60 "0x0") "0x0").
  - rewrite bool_decide_eq_true_2; [reflexivity|].
    exists 20. split; [|reflexivity].
    apply (bool_decide_unpack _). by vm_compute.
  - reflexivity.
  - apply (bool_decide_unpack _). by vm_compute.
  - reflexivity.
  - apply (bool_decide_unpack _). by vm_compute.
Defined.

(** ** Computations that leave the detector alone *)

Create HintDb frame discriminated.

Lemma pd_ret {A} (a : A) : preserves_detector (ret a).
Proof. by intros w. Qed.

Lemma pd_raise {A} e : preserves_detector (@raise World A e).
Proof. by intros w. Qed.

Lemma pd_lift {A} (r : result A) : preserves_detector (lift r).
Proof. by destruct r; intros w. Qed.

Lemma pd_get : preserves_detector (@get World).
Proof. by intros w. Qed.

Lemma pd_bind {A B} (m : Py World A) (k : A -> Py World B) :
  preserves_detector m → (∀ a, preserves_detector (k a)) →
  preserves_detector (bind m k).
Proof.
  intros Hm Hk w. specialize (Hm w). unfold bind, final in *.
  destruct (m w) as [[[a|e] w1] l1]; simpl in *; [|done].
  specialize (Hk a w1). unfold final in Hk.
  destruct (k a w1) as [[r w2] l2]. simpl in *. congruence.
Qed.

Lemma pd_try_except {A} (m h : Py World A) :
  preserves_detector m → preserves_detector h →
  preserves_detector (try_except m h).
Proof.
  intros Hm Hh w. specialize (Hm w). unfold try_except, final in *.
  destruct (m w) as [[[a|e] w1] l1]; simpl in *; [done|].
  specialize (Hh w1). unfold final in Hh.
  destruct (h w1) as [[r w2] l2]. simpl in *. congruence.
Qed.

Lemma pd_request q : preserves_detector (request q).
Proof. by intros w. Qed.

#[global] Hint Resolve pd_ret pd_raise pd_lift pd_get pd_request : frame.

(** Splits a computation along its binds and its case distinctions. *)
Ltac frame_step :=
  match goal with
  | |- preserves_detector (bind _ _) => apply pd_bind; [|intros ?]
  | |- preserves_detector (try_except _ _) => apply pd_try_except
  | |- preserves_detector (if ?b then _ else _) => destruct b
  | |- preserves_detector (match ?x with _ => _ end) => destruct x
  | |- preserves_detector _ => solve [auto with frame]
  end.
Ltac frame := repeat frame_step.

Lemma pd_for_append {A B} (xs : list A) (body : A -> Py World B) :
  (∀ x, preserves_detector (body x)) →
  preserves_detector (for_append xs body).
Proof. intros Hb. induction xs as [|x xs IH]; simpl; frame. Qed.

Lemma pd_for_fold {A B} (xs : list A) (body : B -> A -> Py World B) :
  (∀ acc x, preserves_detector (body acc x)) →
  ∀ acc, preserves_detector (for_fold xs acc body).
Proof. intros Hb. induction xs as [|x xs IH]; intros acc; simpl; frame. Qed.

Lemma pd_draw entropy : preserves_detector (draw entropy).
Proof. by intros w. Qed.
#[global] Hint Resolve pd_draw : frame.

Lemma pd_randint entropy a b : preserves_detector (randint entropy a b).
Proof. unfold randint. frame. Qed.
#[global] Hint Resolve pd_randint : frame.

Lemma pd_choice {A} entropy (d : A) seq :
  preserves_detector (choice entropy d seq).
Proof. unfold choice. frame. Qed.
#[global] Hint Resolve pd_choice : frame.

Lemma pd_choices_nat entropy population k :
  preserves_detector (choices_nat entropy population k).
Proof. induction k as [|k IH]; simpl; frame. Qed.
#[global] Hint Resolve pd_choices_nat : frame.

Lemma pd_choices entropy population k :
  preserves_detector (choices entropy population k).
Proof. unfold choices. frame. Qed.
#[global] Hint Resolve pd_choices : frame.

Lemma pd_generate_value entropy to_checksum_address param :
  preserves_detector (generate_value entropy to_checksum_address param).
Proof. unfold generate_value. frame. Qed.
#[global] Hint Resolve pd_generate_value : frame.

Lemma pd_generate_inputs entropy to_checksum_address param_list :
  preserves_detector (generate_inputs entropy to_checksum_address param_list).
Proof.
  unfold generate_inputs. frame. apply pd_for_append. auto with frame.
Qed.
#[global] Hint Resolve pd_generate_inputs : frame.

Lemma pd_visit_member entropy to_checksum_address acc vf :
  preserves_detector (visit_member entropy to_checksum_address acc vf).
Proof. unfold visit_member. frame. Qed.
#[global] Hint Resolve pd_visit_member : frame.

Lemma pd_visit_node entropy to_checksum_address acc node :
  preserves_detector (visit_node entropy to_checksum_address acc node).
Proof.
  unfold visit_node. frame. apply pd_for_fold. auto with frame.
Qed.
#[global] Hint Resolve pd_visit_node : frame.

Lemma pd_generate_test_suite entropy to_checksum_address ast :
  preserves_detector (generate_test_suite entropy to_checksum_address ast).
Proof.
  unfold generate_test_suite. frame. apply pd_for_fold. auto with frame.
Qed.

Lemma pd_deploy_smart_contract node_deploys args :
  preserves_detector (deploy_smart_contract node_deploys args).
Proof. unfold deploy_smart_contract. frame. Qed.

Lemma pd_execute_transaction node_transacts contract function :
  preserves_detector (execute_transaction node_transacts contract function).
Proof. unfold execute_transaction. frame. Qed.
#[global] Hint Resolve pd_execute_transaction : frame.

Lemma pd_debug_transaction node_traces receipt :
  preserves_detector (debug_transaction node_traces receipt).
Proof. unfold debug_transaction. frame. Qed.
#[global] Hint Resolve pd_debug_transaction : frame.

Lemma pd_trace_to_analyse node_transacts node_traces contract function :
  preserves_detector (trace_to_analyse node_transacts node_traces contract function).
Proof. unfold trace_to_analyse. frame. Qed.

Section FuzzerProperties.

Variable entropy : nat -> Z.
Variable to_checksum_address : string -> string.
Variable node_deploys : list Request -> option Contract.
Variable node_transacts : list Request -> option TxReceipt.
Variable node_traces : list Request -> result DebugResult.
Variable ast : json.

(** ** Input generation *)






(** ** The orchestrator *)

Lemma for_each_seq_shift {S} (m : Py S unit) n : ∀ a b s,
  for_each (seq a n) (fun _ => m) s = for_each (seq b n) (fun _ => m) s.
Proof.
  induction n as [|n IH]; intros a b s; [done|].
  simpl. apply bind_ext. intros _ s'. apply IH.
Qed.

(** [k + n] rounds are [k] rounds, then [n] rounds. *)
Lemma run_rounds_split (k n : nat) w :
  run entropy to_checksum_address node_deploys node_transacts node_traces ast
    (Z.of_nat (k + n)) w
  = bind (run entropy to_checksum_address node_deploys node_transacts
            node_traces ast (Z.of_nat k))
         (fun _ => run entropy to_checksum_address node_deploys node_transacts
                     node_traces ast (Z.of_nat n)) w.
Proof.
  unfold run. rewrite !Nat2Z.id, seq_app, for_each_app.
  apply bind_ext. intros _ s'. apply for_each_seq_shift.
Qed.

(** The calls of a plan, around any one of them. *)
Lemma execute_functions_split fs1 f fs2 contract w :
  execute_functions node_transacts node_traces (Some (fs1 ++ f :: fs2)) contract w
  = bind (execute_functions node_transacts node_traces (Some fs1) contract)
      (fun _ =>
         bind (execute_function node_transacts node_traces contract f)
           (fun _ => execute_functions node_transacts node_traces (Some fs2)
                       contract)) w.
Proof. unfold execute_functions. by rewrite for_each_app. Qed.

(** A round whose plan could not be built still asks for a deployment,
    without constructor arguments; when the contract is deployed, the
    loop over the functions raises. *)
Lemma round_after_failed_plan w w1 l1 :
  generate_test_suite entropy to_checksum_address ast w = (Ok (None, None), w1, l1) →
  round entropy to_checksum_address node_deploys node_transacts node_traces ast w
  = (match node_deploys (Deploy None :: requests w1) with
     | Some _ => Raise TypeError
     | None => Ok tt
     end,
     {| detector := detector w1; draws := draws w1;
        requests := Deploy None :: requests w1 |},
     l1).
Proof.
  intros Hgen. unfold round, bind at 1. rewrite Hgen. simpl.
  unfold deploy_smart_contract, bind, request, modify, get, ret. simpl.
  destruct (node_deploys (Deploy None :: requests w1)); simpl;
    by rewrite ?app_nil_r.
Qed.

(** An exception in the first round ends the run. *)
Lemma run_stops_at_exception (n : nat) w e :
  outcome (round entropy to_checksum_address node_deploys node_transacts
             node_traces ast w) = Raise e →
  run entropy to_checksum_address node_deploys node_transacts node_traces ast
    (Z.of_nat (S n)) w
  = round entropy to_checksum_address node_deploys node_transacts node_traces
      ast w.
Proof.
  intros Hraise. unfold run. rewrite Nat2Z.id. simpl. unfold bind.
  unfold outcome in Hraise.
  by destruct (round _ _ _ _ _ _ w) as [[[[]|e'] w1] l1].
Qed.

End FuzzerProperties.



(** C4, at the failing input. The syntax tree has a function definition
    without "kind": building the plan fails and gives [(None, None)]. The
    round is not skipped: a deployment is requested, the node deploys, and
    [execute_functions(None, contract)] raises [TypeError], which nothing
    catches: of three rounds asked, the run makes one request and ends. *)
Theorem failed_plan_aborts_run :
  generate_test_suite zero_entropy no_checksum ast_without_kind new_world
  = (Ok (None, None), new_world, []) ∧
  run zero_entropy no_checksum always_deploys always_mines (always_traces [])
    ast_without_kind 3 new_world
  = (Raise TypeError,
     {| detector := Detector.__init__; draws := 0; requests := [Deploy None] |},
     []).
Proof. split; by vm_compute. Qed.

(** When [generate_inputs] fails for a function, the plan is built all the
    same, with [None] for the inputs of that function: the round deploys,
    the wrapper answers [None] for that call without calling web3, and the
    next round follows. *)
Lemma failed_inputs_do_not_fail_plan :
  generate_test_suite zero_entropy no_checksum ast_bytes_array new_world
  = (Ok (Some [{| name := JStr "set"; inputs := None; value := 0 |}], None),
     new_world, []) ∧
  run zero_entropy no_checksum always_deploys always_mines (always_traces [])
    ast_bytes_array 2 new_world
  = (Ok tt,
     {| detector := Detector.__init__; draws := 0;
        requests := [Deploy None; Deploy None] |},
     []).
Proof. split; by vm_compute. Qed.

(** ** The detector between two analyses *)

Lemma bind_Ok_inv {S A B} (m : Py S A) (k : A -> Py S B) s b :
  outcome (bind m k s) = Ok b →
  ∃ a, outcome (m s) = Ok a ∧
       outcome (k a (final (m s))) = Ok b ∧
       final (bind m k s) = final (k a (final (m s))).
Proof.
  unfold bind, outcome, final.
  destruct (m s) as [[[a|e] s1] l1]; simpl; [|done].
  destruct (k a s1) as [[r s2] l2] eqn:Hk; simpl. intros ->.
  exists a. by rewrite Hk.
Qed.

Lemma for_each_invariant {S A} (P : S → Prop) (body : A -> Py S unit) xs :
  (∀ x s, P s → outcome (body x s) = Ok tt → P (final (body x s))) →
  ∀ s, P s → outcome (for_each xs body s) = Ok tt →
       P (final (for_each xs body s)).
Proof.
  intros Hbody. induction xs as [|x xs IH]; intros s Hs Hok; [done|].
  simpl in *. apply bind_Ok_inv in Hok as ([] & Hx & Hrest & ->).
  apply IH; [|done]. by apply Hbody.
Qed.

Lemma on_detector_run {A} (m : Py VulnerabilityDetector A) w :
  on_detector m w
  = (outcome (m (detector w)),
     {| detector := final (m (detector w)); draws := draws w;
        requests := requests w |},
     logged (m (detector w))).
Proof. unfold on_detector. by destruct (m (detector w)) as [[r d] l]. Qed.

(** An analysis that reaches its end leaves the detector as new. *)
Lemma analyse_resets logs d :
  outcome (analyse logs d) = Ok tt → final (analyse logs d) = Detector.__init__.
Proof.
  unfold analyse. intros Hok.
  apply bind_Ok_inv in Hok as ([] & _ & _ & ->). done.
Qed.

Section Lifecycle.

Variable entropy : nat -> Z.
Variable to_checksum_address : string -> string.
Variable node_deploys : list Request -> option Contract.
Variable node_transacts : list Request -> option TxReceipt.
Variable node_traces : list Request -> result DebugResult.
Variable ast : json.

(** A call that is skipped, reverted or analysed to the end leaves a
    pristine detector pristine. *)
Lemma execute_function_pristine contract f w :
  pristine w →
  outcome (execute_function node_transacts node_traces contract f w) = Ok tt →
  pristine (final (execute_function node_transacts node_traces contract f w)).
Proof.
  unfold execute_function, pristine. intros Hw Hok.
  apply bind_Ok_inv in Hok as (t & Ht & Hrest & ->).
  pose proof (pd_trace_to_analyse node_transacts node_traces contract f w) as Hpd.
  destruct t as [logs|].
  - rewrite on_detector_run in *. unfold outcome, final in *. simpl in *.
    by apply analyse_resets.
  - unfold ret, final in *. simpl. congruence.
Qed.

Lemma execute_functions_pristine fs contract w :
  pristine w →
  outcome (execute_functions node_transacts node_traces fs contract w) = Ok tt →
  pristine (final (execute_functions node_transacts node_traces fs contract w)).
Proof.
  destruct fs as [fs|]; [|done]. simpl. intros Hw Hok.
  apply (for_each_invariant pristine); [|done..].
  intros f s. apply execute_function_pristine.
Qed.

Lemma round_pristine w :
  pristine w →
  outcome (round entropy to_checksum_address node_deploys node_transacts
             node_traces ast w) = Ok tt →
  pristine (final (round entropy to_checksum_address node_deploys
                     node_transacts node_traces ast w)).
Proof.
  unfold round. intros Hw Hok.
  apply bind_Ok_inv in Hok as (suite & Hs & Hok & ->).
  apply bind_Ok_inv in Hok as (deployed & Hd & Hok & ->).
  assert (Hp : pristine
            (final (deploy_smart_contract node_deploys suite.2
               (final (generate_test_suite entropy to_checksum_address ast w))))).
  { unfold pristine.
    rewrite pd_deploy_smart_contract, pd_generate_test_suite. done. }
  destruct deployed as [contract|]; [|done].
  by apply execute_functions_pristine.
Qed.

Lemma run_pristine num_tests w :
  pristine w →
  outcome (run entropy to_checksum_address node_deploys node_transacts
             node_traces ast num_tests w) = Ok tt →
  pristine (final (run entropy to_checksum_address node_deploys node_transacts
                     node_traces ast num_tests w)).
Proof.
  unfold run. intros Hw Hok.
  apply (for_each_invariant pristine); [|done..].
  intros _ s. apply round_pristine.
Qed.

(** C9. Take any number of complete rounds of a run that starts with a new
    detector, then in the next round the plan, the deployment, any
    calls of the plan that were carried through, and the request for the
    trace of the call that follows. At that point, where the analysis of
    that trace begins, the detector is as [__init__] builds it, and the
    analysis is the analysis of the trace by a new detector. Rounds and
    plans split this way at every call (lemmas [run_rounds_split] and
    [execute_functions_split]). *)
Theorem every_analysis_starts_pristine (k : nat) (w0 : World)
    (fs1 fs2 : list FunctionPlan) (f : FunctionPlan)
    (constructor_inputs : option (list PyVal)) (contract : Contract)
    (logs : list Instruction) :
  pristine w0 →
  let w1 := final (run entropy to_checksum_address node_deploys node_transacts
                     node_traces ast (Z.of_nat k) w0) in
  outcome (run entropy to_checksum_address node_deploys node_transacts
             node_traces ast (Z.of_nat k) w0) = Ok tt →
  let w2 := final (generate_test_suite entropy to_checksum_address ast w1) in
  outcome (generate_test_suite entropy to_checksum_address ast w1)
  = Ok (Some (fs1 ++ f :: fs2), constructor_inputs) →
  let w3 := final (deploy_smart_contract node_deploys constructor_inputs w2) in
  outcome (deploy_smart_contract node_deploys constructor_inputs w2)
  = Ok (Some contract) →
  let w4 := final (execute_functions node_transacts node_traces (Some fs1)
                     contract w3) in
  outcome (execute_functions node_transacts node_traces (Some fs1) contract w3)
  = Ok tt →
  let w5 := final (trace_to_analyse node_transacts node_traces contract f w4) in
  outcome (trace_to_analyse node_transacts node_traces contract f w4)
  = Ok (Some logs) →
  detector w5 = Detector.__init__ ∧
  on_detector (analyse logs) w5
  = (outcome (analyse logs Detector.__init__),
     {| detector := final (analyse logs Detector.__init__);
        draws := draws w5; requests := requests w5 |},
     logged (analyse logs Detector.__init__)).
Proof.
  intros Hw0 w1 Hrun w2 Hgen w3 Hdep w4 Hexec w5 Htrace.
  assert (H1 : pristine w1) by (by apply run_pristine).
  assert (H3 : pristine w3).
  { unfold pristine, w3, w2.
    by rewrite pd_deploy_smart_contract, pd_generate_test_suite. }
  assert (H4 : pristine w4) by (by apply execute_functions_pristine).
  assert (H5 : detector w5 = Detector.__init__).
  { unfold w5. by rewrite pd_trace_to_analyse. }
  split; [done|]. by rewrite on_detector_run, H5.
Qed.

End Lifecycle.

Lemma every_analysis_starts_pristine_witness :
  detector
    (final (trace_to_analyse always_mines (always_traces calls_below_read)
              sample_contract withdraw_plan
      (final (execute_functions always_mines (always_traces calls_below_read)
                (Some [deposit_plan]) sample_contract
        (final (deploy_smart_contract always_deploys None
          (final (generate_test_suite zero_entropy no_checksum ast_two_functions
            (final (run zero_entropy no_checksum always_deploys always_mines
                      (always_traces calls_below_read) ast_two_functions 1
                      new_world))))))))))
  = Detector.__init__.
Proof.
  apply (every_analysis_starts_pristine zero_entropy no_checksum always_deploys
           always_mines (always_traces calls_below_read) ast_two_functions
           1 new_world [deposit_plan] [] withdraw_plan None sample_contract
           calls_below_read); by vm_compute.
Defined.

(** Without the reset the second analysis of that run would start from what
    the first one left: the read and the two risky calls of the trace. *)
Lemma feed_leaves_records :
  sloads (final (feed calls_below_read Detector.__init__)) ≠ ∅ ∧
  calls (final (feed calls_below_read Detector.__init__)) ≠ ∅.
Proof. split; apply (bool_decide_unpack _); by vm_compute. Qed.

(** * Further properties *)

(** ** The detector along a trace *)

(** Goes through the branches of a step. *)
Ltac branches := repeat (case_match; simpl in *; simplify_eq; try done).

Lemma py_getitem_nil {A} (i : Z) : py_getitem (@nil A) i = Raise IndexError.
Proof.
  unfold py_getitem. simpl. destruct (i <? 0); by destruct (_ || _).
Qed.

Lemma py_getitem_top_nil {A} (l : list A) e :
  py_getitem l (-1) = Raise e → l = [].
Proof.
  intros H. destruct l as [|x l]; [done|].
  destruct (py_getitem_top (x :: l)) as [y Hy]; [done|]. congruence.
Qed.

Lemma scan_raises_unchanged i s e :
  outcome (scan_instruction i s) = Raise e →
  scan_instruction i s = (Raise e, s, []).
Proof.
  rewrite scan_instruction_step. unfold reentrancy_step, outcome.
  branches; simpl; intros; by simplify_eq.
Qed.

Lemma feed_invariant (P : VulnerabilityDetector → Prop) :
  (∀ i s, P s → P (final (scan_instruction i s))) →
  ∀ tr s, P s → P (final (feed tr s)).
Proof.
  intros Hstep. induction tr as [|i tr IH]; intros s Hs; [done|].
  rewrite feed_cons. unfold bind.
  pose proof (Hstep i s Hs) as H1.
  destruct (scan_instruction i s) as [[[[]|e] s1] l1]; [|done].
  specialize (IH s1 H1). by destruct (feed tr s1) as [[r s2] l2].
Qed.

Lemma feed_cons_Ok i tr s :
  outcome (feed (i :: tr) s) = Ok tt →
  outcome (scan_instruction i s) = Ok tt ∧
  outcome (feed tr (final (scan_instruction i s))) = Ok tt ∧
  final (feed (i :: tr) s) = final (feed tr (final (scan_instruction i s))) ∧
  logged (feed (i :: tr) s)
  = logged (scan_instruction i s) ++ logged (feed tr (final (scan_instruction i s))).
Proof.
  rewrite feed_cons. unfold bind, outcome, final, logged.
  destruct (scan_instruction i s) as [[[[]|e] s1] l1]; simpl; [|done].
  destruct (feed tr s1) as [[r s2] l2]; simpl. by intros ->.
Qed.

(** The three components of the detector after one instruction. *)
Lemma scan_sloads i s :
  sloads (final (scan_instruction i s))
  = if bool_decide (op i = "SLOAD") then
      match py_getitem (stack i) (-1) with
      | Ok slot => <[slot := pc i]> (sloads s)
      | Raise _ => sloads s
      end
    else sloads s.
Proof.
  rewrite scan_instruction_step. unfold reentrancy_step, final. branches.
Qed.

Lemma scan_calls i s :
  calls (final (scan_instruction i s))
  = if negb (bool_decide (op i = "SLOAD")) && bool_decide (op i = "CALL")
       && bool_decide (sloads s ≠ ∅) && risky i
    then {[pc i]} ∪ calls s else calls s.
Proof.
  rewrite scan_instruction_step. unfold reentrancy_step, final, risky. branches.
Qed.

Lemma scan_flag i s :
  flag (final (scan_instruction i s))
  = flag s
    || (negb (bool_decide (op i = "SLOAD")) && bool_decide (op i = "CALL")
        && bool_decide (sloads s ≠ ∅) && risky i
        && bool_decide (read_before s (pc i))).
Proof.
  rewrite scan_instruction_step. unfold reentrancy_step, final, risky.
  destruct (bool_decide (op i = "SLOAD")); simpl.
  { destruct (py_getitem _ _); simpl; by rewrite orb_false_r. }
  destruct (bool_decide (op i = "CALL")); simpl.
  - destruct (bool_decide (sloads s ≠ ∅)); simpl.
    + destruct (call_gas i); simpl; [|by rewrite orb_false_r].
      destruct (call_value i); simpl; [|by rewrite orb_false_r].
      destruct (_ && _); simpl; [|by rewrite orb_false_r].
      destruct (existsb _ _) eqn:Hex; simpl.
      * apply existsb_reads in Hex.
        rewrite bool_decide_eq_true_2 by done. by rewrite orb_true_r.
      * rewrite bool_decide_eq_false_2; [by rewrite orb_false_r|].
        intros Hr. apply existsb_reads in Hr. congruence.
    + rewrite orb_false_r. branches.
  - rewrite orb_false_r. branches.
Qed.

Lemma sload_raise i s e :
  op i = "SLOAD" → py_getitem (stack i) (-1) = Raise e →
  outcome (scan_instruction i s) = Raise e.
Proof.
  intros Hop Hget. rewrite scan_instruction_step. unfold reentrancy_step.
  rewrite bool_decide_eq_true_2 by done. by rewrite Hget.
Qed.

Lemma last_read_step i s slot :
  outcome (scan_instruction i s) = Ok tt →
  sloads (final (scan_instruction i s)) !! slot
  = last_read slot (sloads s !! slot) [i].
Proof.
  intros Hok. rewrite scan_sloads. simpl.
  case_bool_decide as Hop; [|done].
  destruct (py_getitem (stack i) (-1)) as [top|e] eqn:Hget.
  - rewrite lookup_insert. case_decide; by case_bool_decide.
  - rewrite (sload_raise i s e) in Hok by done. done.
Qed.

(** X1. Along a trace scanned to its end, the pc recorded for a slot is the
    pc of the last SLOAD of the trace whose top of stack is that slot; a
    slot that the trace does not read keeps what the detector held. *)
Theorem latest_read_is_recorded (tr : list Instruction) (s : VulnerabilityDetector)
    (slot : string) :
  outcome (feed tr s) = Ok tt →
  sloads (final (feed tr s)) !! slot = last_read slot (sloads s !! slot) tr.
Proof.
  revert s. induction tr as [|i tr IH]; intros s Hok; [done|].
  apply feed_cons_Ok in Hok as (Hi & Htr & -> & _).
  rewrite IH by done. simpl. f_equal.
  by rewrite (last_read_step i s slot Hi).
Qed.

Lemma latest_read_is_recorded_witness :
  sloads (final (feed [sload_at 10 "0x0"; sload_at 20 "0x1"; sload_at 30 "0x0"]
                   Detector.__init__)) !! "0x0"
  = Some 30.
Proof.
  rewrite (latest_read_is_recorded
             [sload_at 10 "0x0"; sload_at 20 "0x1"; sload_at 30 "0x0"]
             Detector.__init__ "0x0"); by vm_compute.
Defined.

Lemma sloads_nonempty_after i s :
  outcome (scan_instruction i s) = Ok tt →
  bool_decide (sloads (final (scan_instruction i s)) ≠ ∅)
  = bool_decide (op i = "SLOAD") || bool_decide (sloads s ≠ ∅).
Proof.
  intros Hok. rewrite scan_sloads.
  destruct (bool_decide (op i = "SLOAD")) eqn:Hop; [|done]. simpl.
  apply bool_decide_eq_true in Hop.
  destruct (py_getitem (stack i) (-1)) as [top|e] eqn:Hget.
  - apply bool_decide_eq_true_2, insert_non_empty.
  - rewrite (sload_raise i s e) in Hok by done. done.
Qed.

(** X2. Along a trace scanned to its end, the calls the detector records
    are the CALL instructions with gas above 2300 and a positive value
    that come after a storage read: a risky call that precedes every read
    leaves no record. *)
Theorem recorded_calls_follow_a_read (tr : list Instruction) (s : VulnerabilityDetector) :
  outcome (feed tr s) = Ok tt →
  calls (final (feed tr s))
  = calls s ∪ risky_calls (bool_decide (sloads s ≠ ∅)) tr.
Proof.
  revert s. induction tr as [|i tr IH]; intros s Hok.
  - cbn. set_solver.
  - apply feed_cons_Ok in Hok as (Hi & Htr & -> & _).
    rewrite IH by done. rewrite sloads_nonempty_after by done.
    rewrite scan_calls. simpl.
    destruct (bool_decide (op i = "SLOAD")) eqn:Hsload; simpl; [done|].
    destruct (bool_decide (op i = "CALL") && bool_decide (sloads s ≠ ∅)
              && risky i); [|done].
    set_solver.
Qed.

Lemma recorded_calls_follow_a_read_witness :
  calls (final (feed [call_at 5 "0x5208" "0xde0b6b3a7640000";
                      sload_at 10 "0x0";
                      call_at 20 "0x5208" "0xde0b6b3a7640000";
                      call_at 30 "0x5208" "0x0"] Detector.__init__))
  = {[20]}.
Proof.
  rewrite (recorded_calls_follow_a_read
             [call_at 5 "0x5208" "0xde0b6b3a7640000"; sload_at 10 "0x0";
              call_at 20 "0x5208" "0xde0b6b3a7640000";
              call_at 30 "0x5208" "0x0"] Detector.__init__); by vm_compute.
Defined.

Lemma consistent_step i s :
  consistent s → consistent (final (scan_instruction i s)).
Proof.
  intros [Hflag Hcalls]. unfold consistent.
  rewrite scan_flag, scan_calls, scan_sloads.
  destruct (bool_decide (op i = "SLOAD")) eqn:Hsload; simpl.
  - rewrite orb_false_r. split; [done|].
    intros Hc. destruct (py_getitem _ _); [apply insert_non_empty|by apply Hcalls].
  - destruct (bool_decide (op i = "CALL") && bool_decide (sloads s ≠ ∅) && risky i)
      eqn:Hcond; simpl.
    + split; [intros _; set_solver|]. intros _.
      apply andb_prop in Hcond as [Hcond _].
      apply andb_prop in Hcond as [_ Hne]. by apply bool_decide_eq_true in Hne.
    + by rewrite orb_false_r.
Qed.

(** X3. Whatever the trace, and wherever its scan ends, a detector that
    started as new has its latch set only when a risky call is recorded,
    and a risky call recorded only when a read is. *)
Theorem reachable_states_are_consistent (tr : list Instruction) :
  consistent (final (feed tr Detector.__init__)).
Proof.
  apply (feed_invariant consistent); [apply consistent_step|].
  split; [done|]. intros H. by destruct H.
Qed.

Lemma scan_outcome i s :
  outcome (scan_instruction i s)
  = if bool_decide (op i = "SLOAD") then
      match py_getitem (stack i) (-1) with Ok _ => Ok tt | Raise e => Raise e end
    else if bool_decide (op i = "CALL") && bool_decide (sloads s ≠ ∅) then
      match call_gas i with
      | Raise e => Raise e
      | Ok _ => match call_value i with Ok _ => Ok tt | Raise e => Raise e end
      end
    else if bool_decide (op i = "SSTORE") && bool_decide (calls s ≠ ∅) then
      match py_getitem (stack i) (-1) with Ok _ => Ok tt | Raise e => Raise e end
    else Ok tt.
Proof.
  rewrite scan_instruction_step. unfold reentrancy_step, outcome. branches.
Qed.

Lemma scan_count_reentrancy i s :
  count_finding SCWE_046 (logged (scan_instruction i s))
  = count_finding SCWE_046 (logged (reentrancy_step i s)).
Proof.
  rewrite scan_instruction_step.
  destruct (reentrancy_step i s) as [[[[]|e] s1] l1]; unfold logged; simpl; [|done].
  rewrite count_finding_app. destruct (bool_decide _); [|simpl; lia].
  replace (count_finding SCWE_046 [SCWE_018]) with 0%nat by reflexivity. lia.
Qed.

(** The number of SCWE-046 that one instruction logs. *)
Lemma scan_count_046 i s :
  count_finding SCWE_046 (logged (scan_instruction i s))
  = if bool_decide (op i = "SLOAD") then 0%nat
    else if bool_decide (op i = "CALL") && bool_decide (sloads s ≠ ∅) then
      if risky i && bool_decide (read_before s (pc i)) then 1%nat else 0%nat
    else if bool_decide (op i = "SSTORE") && bool_decide (calls s ≠ ∅) then
      match py_getitem (stack i) (-1) with
      | Ok slot =>
          if bool_decide (is_Some (sloads s !! slot))
             && bool_decide (call_before s (pc i)) && negb (flag s)
          then 1%nat else 0%nat
      | Raise _ => 0%nat
      end
    else 0%nat.
Proof.
  assert (Hr : bool_decide (read_before s (pc i))
               = existsb (λ p, p <? pc i) (map_to_list (sloads s)).*2).
  { destruct (existsb _ _) eqn:Hex.
    - apply bool_decide_eq_true_2. by apply existsb_reads.
    - apply bool_decide_eq_false_2. intros H. apply existsb_reads in H. congruence. }
  assert (Hc : bool_decide (call_before s (pc i))
               = existsb (λ p, p <? pc i) (elements (calls s))).
  { destruct (existsb (λ p, p <? pc i) (elements (calls s))) eqn:Hex.
    - apply bool_decide_eq_true_2. by apply existsb_calls.
    - apply bool_decide_eq_false_2. intros H. apply existsb_calls in H. congruence. }
  rewrite Hr, Hc, scan_count_reentrancy.
  unfold reentrancy_step, logged, risky, count_finding.
  destruct (bool_decide (op i = "SLOAD")); simpl.
  { by destruct (py_getitem _ _). }
  destruct (bool_decide (op i = "CALL") && bool_decide (sloads s ≠ ∅)); simpl.
  { destruct (call_gas i); simpl; [|done].
    destruct (call_value i); simpl; [|done].
    destruct (_ && _); simpl; [|done].
    by destruct (existsb _ _). }
  destruct (bool_decide (op i = "SSTORE") && bool_decide (calls s ≠ ∅)); simpl.
  { destruct (py_getitem _ _); simpl; [|done]. by destruct (_ && _ && _). }
  done.
Qed.

Lemma increasing_step i s b :
  b ≤ pc i →
  (∀ slot r, sloads s !! slot = Some r → r < b) →
  (∀ c, c ∈ calls s → c < b) →
  (calls s ≠ ∅ → flag s = true) →
  (∀ slot r, sloads (final (scan_instruction i s)) !! slot = Some r → r < pc i + 1) ∧
  (∀ c, c ∈ calls (final (scan_instruction i s)) → c < pc i + 1) ∧
  (calls (final (scan_instruction i s)) ≠ ∅ →
   flag (final (scan_instruction i s)) = true) ∧
  (count_finding SCWE_046 (logged (scan_instruction i s)) + size (calls s)
   = size (calls (final (scan_instruction i s))))%nat.
Proof.
  intros Hb Hreads Hcalls Hlatch.
  assert (Hreads' : ∀ slot r, sloads s !! slot = Some r → r < pc i + 1).
  { intros slot r Hr. specialize (Hreads slot r Hr). lia. }
  assert (Hcalls' : ∀ c, c ∈ calls s → c < pc i + 1).
  { intros c Hc. specialize (Hcalls c Hc). lia. }
  rewrite scan_sloads, scan_calls, scan_flag, scan_count_046.
  destruct (bool_decide (op i = "SLOAD")) eqn:Hsload; simpl.
  { rewrite orb_false_r. split_and!; try done.
    intros slot r. destruct (py_getitem _ _) as [top|e]; [|apply Hreads'].
    rewrite lookup_insert.
    destruct (decide (top = slot)); [intros ?; simplify_eq; lia|apply Hreads']. }
  destruct (bool_decide (op i = "CALL")) eqn:Hcall; simpl.
  - destruct (bool_decide (sloads s ≠ ∅)) eqn:Hne; simpl.
    + destruct (risky i); simpl.
      * apply bool_decide_eq_true in Hne.
        assert (Hrb : read_before s (pc i)).
        { apply map_choose in Hne as (slot & r & Hr).
          exists slot, r. split; [done|]. specialize (Hreads slot r Hr). lia. }
        rewrite (bool_decide_eq_true_2 _ Hrb), orb_true_r.
        split_and!; try done.
        -- intros c [->%elem_of_singleton|Hc]%elem_of_union; [lia|by apply Hcalls'].
        -- rewrite size_union, size_singleton; [lia|].
           apply disjoint_singleton_l. intros Hin.
           specialize (Hcalls _ Hin). lia.
      * rewrite orb_false_r. by split_and!.
    + rewrite orb_false_r.
      apply bool_decide_eq_true in Hcall.
      rewrite (bool_decide_eq_false_2 (op i = "SSTORE")) by congruence.
      simpl. by split_and!.
  - rewrite orb_false_r.
    assert (Hzero : (if bool_decide (op i = "SSTORE") && bool_decide (calls s ≠ ∅)
             then match py_getitem (stack i) (-1) with
                  | Ok slot =>
                      if bool_decide (is_Some (sloads s !! slot))
                         && bool_decide (call_before s (pc i)) && negb (flag s)
                      then 1%nat else 0%nat
                  | Raise _ => 0%nat
                  end
             else 0%nat) = 0%nat).
    { destruct (bool_decide (op i = "SSTORE")); simpl; [|done].
      destruct (bool_decide (calls s ≠ ∅)) eqn:Hc; simpl; [|done].
      apply bool_decide_eq_true in Hc.
      rewrite (Hlatch Hc). destruct (py_getitem _ _); [|done].
      by rewrite andb_false_r. }
    rewrite Hzero. by split_and!.
Qed.

Lemma increasing_feed tr : ∀ s b,
  increasing_from b tr →
  (∀ slot r, sloads s !! slot = Some r → r < b) →
  (∀ c, c ∈ calls s → c < b) →
  (calls s ≠ ∅ → flag s = true) →
  (count_finding SCWE_046 (logged (feed tr s)) + size (calls s)
   = size (calls (final (feed tr s))))%nat.
Proof.
  induction tr as [|i tr IH]; intros s b Hinc Hreads Hcalls Hlatch; [done|].
  destruct Hinc as [Hb Hinc].
  destruct (increasing_step i s b Hb Hreads Hcalls Hlatch)
    as (Hreads1 & Hcalls1 & Hlatch1 & Hcount1).
  rewrite feed_cons. unfold bind.
  destruct (scan_instruction i s) as [[[[]|e] s1] l1] eqn:Hscan;
    unfold final, logged in *; simpl in *; [|done].
  specialize (IH s1 (pc i + 1) Hinc Hreads1 Hcalls1 Hlatch1).
  destruct (feed tr s1) as [[r s2] l2]; simpl in *.
  rewrite count_finding_app. lia.
Qed.

(** X4. In a trace whose pcs go up strictly, scanned by a new detector,
    the number of SCWE-046 logged is the number of risky calls recorded,
    wherever the scan ends: every recorded call has reported once, and no
    SSTORE has reported. *)
Theorem increasing_pcs_one_finding_per_call (tr : list Instruction) (b : Z) :
  increasing_from b tr →
  count_finding SCWE_046 (logged (feed tr Detector.__init__))
  = size (calls (final (feed tr Detector.__init__))).
Proof.
  intros Hinc.
  rewrite <- (increasing_feed tr Detector.__init__ b Hinc).
  - change (calls Detector.__init__) with (∅ : gset Z).
    rewrite size_empty. lia.
  - intros slot r Hr. simpl in Hr. by rewrite lookup_empty in Hr.
  - intros c Hc. simpl in Hc. by apply not_elem_of_empty in Hc.
  - intros Hne. by destruct Hne.
Qed.

Lemma increasing_pcs_one_finding_per_call_witness :
  count_finding SCWE_046
    (logged (feed (two_risky_calls ++ [sstore_at 40 "0x0"]) Detector.__init__))
  = size (calls (final (feed (two_risky_calls ++ [sstore_at 40 "0x0"])
                          Detector.__init__))).
Proof.
  apply (increasing_pcs_one_finding_per_call
           (two_risky_calls ++ [sstore_at 40 "0x0"]) 0).
  simpl. lia.
Defined.

Lemma py_getitem_top_Raise {A} (l : list A) :
  is_Ok (py_getitem l (-1)) = false ↔ l = [].
Proof.
  split.
  - destruct (py_getitem l (-1)) as [x|e] eqn:H; [done|].
    intros _. by eapply py_getitem_top_nil.
  - intros ->. by rewrite py_getitem_nil.
Qed.

(** X5. An instruction raises exactly when its rule reads an operand that
    is missing or is no hexadecimal number: an SLOAD with an empty stack;
    a CALL, once a read is recorded, whose top or third from the top is
    missing or does not parse; an SSTORE, once a risky call is recorded,
    with an empty stack. A CALL before any read and an SSTORE before any
    risky call never raise, whatever their stack. When an instruction
    raises, the detector is left as it was and nothing is logged. *)
Theorem raises_exactly_on_missing_operand (i : Instruction) (s : VulnerabilityDetector) :
  (outcome (scan_instruction i s) ≠ Ok tt ↔ lacks_operand s i) ∧
  (outcome (scan_instruction i s) = Ok tt ∨
   ∃ e, scan_instruction i s = (Raise e, s, [])).
Proof.
  split.
  - rewrite scan_outcome. unfold lacks_operand.
    destruct (bool_decide (op i = "SLOAD")) eqn:H1.
    { apply bool_decide_eq_true in H1.
      destruct (py_getitem (stack i) (-1)) as [x|e] eqn:Hget.
      - split; [done|]. intros [[_ Hnil]|[(Hc & _)|(Hc & _)]]; [|congruence..].
        rewrite Hnil, py_getitem_nil in Hget. done.
      - split; [|done]. intros _. left. split; [done|].
        by eapply py_getitem_top_nil. }
    apply bool_decide_eq_false in H1.
    destruct (bool_decide (op i = "CALL")) eqn:H2; simpl.
    { apply bool_decide_eq_true in H2.
      destruct (bool_decide (sloads s ≠ ∅)) eqn:H3.
      - apply bool_decide_eq_true in H3.
        destruct (call_gas i) as [g|e] eqn:Hg; simpl.
        + destruct (call_value i) as [v|e] eqn:Hv; simpl.
          * split; [done|].
            intros [[Hc _]|[(_ & _ & [Hc|Hc])|(Hc & _)]]; congruence.
          * split; [|done]. intros _. right. left. by eauto.
        + split; [|done]. intros _. right. left. by eauto.
      - apply bool_decide_eq_false in H3.
        rewrite (bool_decide_eq_false_2 (op i = "SSTORE")) by congruence. simpl.
        split; [done|].
        intros [[Hc _]|[(_ & Hc & _)|(Hc & _)]]; [congruence|done|congruence]. }
    apply bool_decide_eq_false in H2.
    destruct (bool_decide (op i = "SSTORE")) eqn:H4; simpl.
    { apply bool_decide_eq_true in H4.
      destruct (bool_decide (calls s ≠ ∅)) eqn:H5.
      - apply bool_decide_eq_true in H5.
        destruct (py_getitem (stack i) (-1)) as [x|e] eqn:Hget.
        + split; [done|]. intros [[Hc _]|[(Hc & _)|(_ & _ & Hnil)]]; [congruence..|].
          rewrite Hnil, py_getitem_nil in Hget. done.
        + split; [|done]. intros _. right. right. split_and!; [done..|].
          by eapply py_getitem_top_nil.
      - apply bool_decide_eq_false in H5. split; [done|].
        intros [[Hc _]|[(Hc & _)|(_ & Hc & _)]]; [congruence..|done]. }
    apply bool_decide_eq_false in H4. split; [done|].
    intros [[Hc _]|[(Hc & _)|(Hc & _)]]; congruence.
  - destruct (outcome (scan_instruction i s)) as [[]|e] eqn:Hout; [by left|].
    right. exists e. by apply scan_raises_unchanged.
Qed.

Lemma scan_logs_at_most_one i s :
  (length (logged (scan_instruction i s)) ≤ 1)%nat.
Proof.
  rewrite scan_instruction_step.
  destruct (bool_decide (op i = "ORIGIN")) eqn:Ho.
  - apply bool_decide_eq_true in Ho. rewrite reentrancy_origin by done.
    unfold logged. simpl. lia.
  - destruct (reentrancy_log_cases i s) as [Hl|Hl];
      destruct (reentrancy_step i s) as [[[[]|e] s1] l1];
      unfold logged in *; simpl in *; subst; simpl; lia.
Qed.

(** X6. No instruction logs more than one finding: whatever the trace and
    the state, the log of a scan is not longer than the trace. *)
Theorem at_most_one_finding_per_instruction (tr : list Instruction)
    (s : VulnerabilityDetector) :
  (length (logged (feed tr s)) ≤ length tr)%nat.
Proof.
  revert s. induction tr as [|i tr IH]; intros s; [done|].
  rewrite feed_cons. unfold bind.
  pose proof (scan_logs_at_most_one i s) as H1.
  destruct (scan_instruction i s) as [[[[]|e] s1] l1];
    unfold logged in *; simpl in *; [|lia].
  specialize (IH s1). destruct (feed tr s1) as [[r s2] l2]; simpl in *.
  rewrite length_app. lia.
Qed.

Lemma feed_app tr1 tr2 s :
  feed (tr1 ++ tr2) s = bind (feed tr1) (fun _ => feed tr2) s.
Proof. unfold feed. apply for_each_app. Qed.

(** X7. When an instruction raises after a part of the trace has been
    scanned, the scan and the analysis end there with that exception: the
    findings of the part scanned stay logged, nothing behind the
    instruction is scanned, and the detector is not reset: it keeps what
    the part scanned has recorded. *)
Theorem exception_ends_the_analysis (pre post : list Instruction) (i : Instruction)
    (s : VulnerabilityDetector) (e : PyExc) :
  outcome (feed pre s) = Ok tt →
  outcome (scan_instruction i (final (feed pre s))) = Raise e →
  feed (pre ++ i :: post) s = (Raise e, final (feed pre s), logged (feed pre s)) ∧
  analyse (pre ++ i :: post) s
  = (Raise e, final (feed pre s), logged (feed pre s)).
Proof.
  intros Hpre Hi.
  assert (Hfeed : feed (pre ++ i :: post) s
                  = (Raise e, final (feed pre s), logged (feed pre s))).
  { rewrite feed_app. unfold bind at 1. unfold outcome, final, logged in *.
    destruct (feed pre s) as [[[[]|e'] s1] l1]; simpl in *; [|done].
    rewrite feed_cons. unfold bind.
    rewrite (scan_raises_unchanged i s1 e Hi). by rewrite app_nil_r. }
  split; [done|]. unfold analyse, bind. by rewrite Hfeed.
Qed.

Lemma exception_ends_the_analysis_witness :
  analyse ([sload_at 10 "0x0"; call_at 20 "0x5208" "0xde0b6b3a7640000"]
           ++ truncated_sload :: [origin_at 40]) Detector.__init__
  = (Raise IndexError,
     final (feed [sload_at 10 "0x0"; call_at 20 "0x5208" "0xde0b6b3a7640000"]
              Detector.__init__),
     logged (feed [sload_at 10 "0x0"; call_at 20 "0x5208" "0xde0b6b3a7640000"]
               Detector.__init__)).
Proof.
  apply (exception_ends_the_analysis
           [sload_at 10 "0x0"; call_at 20 "0x5208" "0xde0b6b3a7640000"]
           [origin_at 40] truncated_sload Detector.__init__ IndexError);
    by vm_compute.
Defined.

Lemma grows_step (s0 : VulnerabilityDetector) i s :
  dom (sloads s0) ⊆ dom (sloads s) ∧ calls s0 ⊆ calls s ∧
    implb (flag s0) (flag s) = true →
  dom (sloads s0) ⊆ dom (sloads (final (scan_instruction i s))) ∧
  calls s0 ⊆ calls (final (scan_instruction i s)) ∧
  implb (flag s0) (flag (final (scan_instruction i s))) = true.
Proof.
  intros (Hs & Hc & Hf). rewrite scan_sloads, scan_calls, scan_flag.
  split_and!.
  - destruct (bool_decide _); [|done].
    destruct (py_getitem _ _); [|done]. rewrite dom_insert_L. set_solver.
  - destruct (_ && _ && _ && _); [set_solver|done].
  - destruct (flag s0); [|done]. simpl in *. by rewrite Hf.
Qed.

(** X8. Within a trace the detector only gains: wherever the scan ends,
    every slot that was recorded is still recorded, every risky call
    recorded is still recorded, and a latch that was set is still set.
    Only [reset_variables] takes anything away. *)
Theorem scan_never_forgets (tr : list Instruction) (s : VulnerabilityDetector) :
  dom (sloads s) ⊆ dom (sloads (final (feed tr s))) ∧
  calls s ⊆ calls (final (feed tr s)) ∧
  implb (flag s) (flag (final (feed tr s))) = true.
Proof.
  apply (feed_invariant
           (λ s', dom (sloads s) ⊆ dom (sloads s') ∧ calls s ⊆ calls s' ∧
                  implb (flag s) (flag s') = true)).
  - intros i s'. apply grows_step.
  - split_and!; [done..|]. by destruct (flag s).
Qed.

(** ** Inverting a computation that went through *)

Lemma bind_inv {S A B} (m : Py S A) (k : A -> Py S B) s b s' l :
  bind m k s = (Ok b, s', l) →
  ∃ a s1 l1 l2, m s = (Ok a, s1, l1) ∧ k a s1 = (Ok b, s', l2) ∧ l = l1 ++ l2.
Proof.
  unfold bind. destruct (m s) as [[[a|e] s1] l1]; [|done].
  destruct (k a s1) as [[r s2] l2] eqn:Hk. intros [= -> -> <-].
  by exists a, s1, l1, l2.
Qed.

Lemma lift_inv {S A} (r : result A) (s : S) a s' l :
  lift r s = (Ok a, s', l) → r = Ok a ∧ s' = s ∧ l = [].
Proof. destruct r; simpl; unfold ret, raise; intros [= <- <- <-]; done. Qed.

Lemma ret_inv {S A} (a : A) (s : S) b s' l :
  ret a s = (Ok b, s', l) → b = a ∧ s' = s ∧ l = [].
Proof. unfold ret. by intros [= <- <- <-]. Qed.

(** Takes apart a hypothesis [m w = (Ok _, _, _)] along the binds of [m]. *)
Ltac invert_run H :=
  repeat match type of H with
  | bind _ _ _ = (Ok _, _, _) =>
      let a := fresh "a" in let w1 := fresh "w" in
      let l1 := fresh "l" in let l2 := fresh "l" in
      let H1 := fresh "Hrun" in let Hl := fresh "Hlog" in
      apply bind_inv in H as (a & w1 & l1 & l2 & H1 & H & Hl);
      first [ apply lift_inv in H1 as (H1 & -> & ->)
            | apply ret_inv in H1 as (-> & -> & ->)
            | idtac ]
  end.

(** ** The random values *)

Lemma draw_run entropy w :
  draw entropy w = (Ok (entropy (draws w)), advance 1 w, []).
Proof. unfold draw, advance. by rewrite Nat.add_1_r. Qed.

Lemma advance_advance j k w : advance k (advance j w) = advance (j + k) w.
Proof. unfold advance. simpl. f_equal. lia. Qed.

Lemma advance_0 w : advance 0 w = w.
Proof. destruct w. unfold advance. simpl. f_equal. lia. Qed.

Lemma randint_run entropy a b w :
  a ≤ b →
  ∃ n, randint entropy a b w = (Ok n, advance 1 w, []) ∧ a ≤ n ≤ b.
Proof.
  intros Hab. exists (a + entropy (draws w) mod (b - a + 1)). split.
  - unfold randint, bind. rewrite draw_run. done.
  - pose proof (Z.mod_pos_bound (entropy (draws w)) (b - a + 1)). lia.
Qed.

Lemma choice_run {A} entropy (d : A) seq w :
  seq ≠ [] →
  ∃ x, choice entropy d seq w = (Ok x, advance 1 w, []) ∧ x ∈ seq.
Proof.
  intros Hne.
  assert (Hlen : 0 ≤ Z.of_nat (length seq) - 1).
  { destruct seq; [done|]. simpl. lia. }
  destruct (randint_run entropy 0 (Z.of_nat (length seq) - 1) w Hlen)
    as (n & Hrun & Hn).
  exists (nth (Z.to_nat n) seq d). split.
  - unfold choice, bind. by rewrite Hrun.
  - apply list_elem_of_In, nth_In. lia.
Qed.

Lemma choices_nat_run entropy population k : ∀ w,
  population ≠ [] →
  ∃ s, choices_nat entropy population k w = (Ok s, advance k w, []) ∧
       String.length s = k ∧
       Forall (λ c, c ∈ population) (list_ascii_of_string s).
Proof.
  induction k as [|k IH]; intros w Hne.
  - exists EmptyString. simpl. unfold ret. by rewrite advance_0.
  - destruct (choice_run entropy "0"%char population w Hne) as (c & Hc & Hin).
    destruct (IH (advance 1 w) Hne) as (s & Hs & Hlen & Hall).
    exists (String c s). simpl. split_and!.
    + unfold bind at 1. rewrite Hc. unfold bind at 1. rewrite Hs. simpl.
      by rewrite advance_advance.
    + by rewrite Hlen.
    + by constructor.
Qed.

Lemma choices_run entropy population k w :
  population ≠ EmptyString → k ≤ sys_maxsize →
  ∃ s, choices entropy population k w = (Ok s, advance (Z.to_nat k) w, []) ∧
       String.length s = Z.to_nat k ∧ drawn_from population s.
Proof.
  intros Hne Hk. unfold choices, drawn_from.
  replace (sys_maxsize <? k) with false by (symmetry; by apply Z.ltb_ge).
  apply choices_nat_run. by destruct population.
Qed.

Lemma choices_overflow entropy population k w :
  sys_maxsize < k →
  choices entropy population k w = (Raise OverflowError, w, []).
Proof.
  intros Hk. unfold choices.
  by replace (sys_maxsize <? k) with true by (symmetry; by apply Z.ltb_lt).
Qed.

Lemma small_count (k : Z) : k ≤ 64 → k ≤ sys_maxsize.
Proof. unfold sys_maxsize. lia. Qed.

(** ** The values generated for the types that are handled *)

Lemma bind_lift_Ok {S A B} (a : A) (k : A -> Py S B) s :
  bind (lift (Ok a)) k s = k a s.
Proof. apply bind_ret_l. Qed.

Lemma bind_lift_Raise {S A B} e (k : A -> Py S B) s :
  bind (lift (Raise e)) k s = (Raise e, s, []).
Proof. done. Qed.

Lemma generate_value_typed entropy to_checksum_address param param_type w :
  type_string param = Ok param_type →
  generate_value entropy to_checksum_address param w
  = value_for entropy to_checksum_address param_type w.
Proof.
  unfold type_string, generate_value. intros Hty.
  destruct (subscript param "typeDescriptions") as [td|e]; [|done].
  rewrite bind_lift_Ok, Hty, bind_lift_Ok. done.
Qed.

Lemma generate_value_untyped entropy to_checksum_address param e w :
  type_string param = Raise e →
  generate_value entropy to_checksum_address param w = (Raise e, w, []).
Proof.
  unfold type_string, generate_value. intros Hty.
  destruct (subscript param "typeDescriptions") as [td|e']; [|by simplify_eq].
  by rewrite bind_lift_Ok, Hty.
Qed.

Lemma bytes_is_no_other_type ty :
  String.prefix "bytes" ty = true →
  eq_str (JStr ty) "uint256" = false ∧ eq_str (JStr ty) "uint" = false ∧
  eq_str (JStr ty) "address" = false ∧ eq_str (JStr ty) "string" = false ∧
  eq_str (JStr ty) "bool" = false.
Proof.
  intros Hp. simpl.
  split_and!; apply bool_decide_eq_false_2; intros ->; discriminate Hp.
Qed.

Section GeneratedValues.

Variable entropy : nat -> Z.
Variable to_checksum_address : string -> string.

(** X9. For a parameter of type uint256 or uint the value is an integer
    between 0 and 2^256 - 1, and one draw is taken. *)
Theorem uint_value_in_range (param : json) (w : World) :
  type_string param = Ok (JStr "uint256") ∨ type_string param = Ok (JStr "uint") →
  ∃ n, generate_value entropy to_checksum_address param w
       = (Ok (VInt n), advance 1 w, []) ∧
       0 ≤ n ≤ 2 ^ 256 - 1.
Proof.
  intros Hty.
  destruct (randint_run entropy 0 (2 ^ 256 - 1) w) as (n & Hrun & Hn); [lia|].
  exists n. split; [|done].
  destruct Hty as [Hty|Hty];
    rewrite (generate_value_typed _ _ _ _ _ Hty);
    unfold value_for; simpl; unfold bind; by rewrite Hrun.
Qed.


(** X11. For the type string "bytes" the value is "0x" followed by 2n
    hexadecimal digits for some n between 1 and 32; one draw is taken for
    n and one per digit. *)
Theorem dynamic_bytes_value (param : json) (w : World) :
  type_string param = Ok (JStr "bytes") →
  ∃ n digits, generate_value entropy to_checksum_address param w
              = (Ok (VStr (String.append "0x" digits)),
                 advance (1 + Z.to_nat (n * 2)) w, []) ∧
              1 ≤ n ≤ 32 ∧
              String.length digits = Z.to_nat (n * 2) ∧
              drawn_from hexdigits digits.
Proof.
  intros Hty.
  destruct (randint_run entropy 1 32 w) as (n & Hn & Hrange); [lia|].
  destruct (choices_run entropy hexdigits (n * 2) (advance 1 w))
    as (digits & Hrun & Hl & Hd); [done|apply small_count; lia|].
  exists n, digits. split; [|done].
  rewrite (generate_value_typed _ _ _ _ _ Hty). unfold value_for. simpl.
  unfold bind at 1. rewrite Hn. unfold bind. rewrite Hrun. simpl.
  by rewrite advance_advance.
Qed.

(** X12. For the type string "string" the value has between 5 and 15
    characters, all of them unaccented letters; one draw is taken for the
    length and one per character. *)
Theorem string_value (param : json) (w : World) :
  type_string param = Ok (JStr "string") →
  ∃ k chars, generate_value entropy to_checksum_address param w
             = (Ok (VStr chars), advance (1 + Z.to_nat k) w, []) ∧
             5 ≤ k ≤ 15 ∧
             String.length chars = Z.to_nat k ∧
             drawn_from letters chars.
Proof.
  intros Hty.
  destruct (randint_run entropy 5 15 w) as (k & Hk & Hrange); [lia|].
  destruct (choices_run entropy letters k (advance 1 w))
    as (chars & Hrun & Hl & Hd); [done|apply small_count; lia|].
  exists k, chars. split; [|done].
  rewrite (generate_value_typed _ _ _ _ _ Hty). unfold value_for. simpl.
  unfold bind at 1. rewrite Hk. unfold bind. rewrite Hrun. simpl.
  by rewrite advance_advance.
Qed.

(** X13. For the type string "address" the value is the checksum form of
    "0x" followed by 40 characters drawn from the hexadecimal digits in
    lower case; 40 draws are taken. *)
Theorem address_value (param : json) (w : World) :
  type_string param = Ok (JStr "address") →
  ∃ digits, generate_value entropy to_checksum_address param w
            = (Ok (VStr (to_checksum_address (String.append "0x" digits))),
               advance 40 w, []) ∧
            String.length digits = 40%nat ∧
            drawn_from hexdigits digits.
Proof.
  intros Hty.
  assert (Hne : hexdigits ≠ EmptyString) by discriminate.
  destruct (choices_run entropy hexdigits 40 w Hne (small_count 40 ltac:(lia)))
    as (digits & Hrun & Hl & Hd).
  exists digits. split; [|split; [exact Hl|exact Hd]].
  rewrite (generate_value_typed _ _ _ _ _ Hty). unfold value_for.
  cbn [eq_str].
  rewrite (bool_decide_eq_false_2 ("address" = "uint256")) by discriminate.
  rewrite (bool_decide_eq_false_2 ("address" = "uint")) by discriminate.
  rewrite (bool_decide_eq_true_2 ("address" = "address")) by reflexivity.
  cbn [orb]. unfold bind. rewrite Hrun. reflexivity.
Qed.

End GeneratedValues.

Lemma uint_value_in_range_witness :
  ∃ n, generate_value sample_entropy no_checksum (param_node "uint256") new_world
       = (Ok (VInt n), advance 1 new_world, []) ∧
       0 ≤ n ≤ 2 ^ 256 - 1.
Proof.
  apply (uint_value_in_range sample_entropy no_checksum (param_node "uint256")
           new_world).
  left. by vm_compute.
Defined.


Lemma dynamic_bytes_value_witness :
  ∃ n digits, generate_value sample_entropy no_checksum (param_node "bytes") new_world
              = (Ok (VStr (String.append "0x" digits)),
                 advance (1 + Z.to_nat (n * 2)) new_world, []) ∧
              1 ≤ n ≤ 32 ∧
              String.length digits = Z.to_nat (n * 2) ∧
              drawn_from hexdigits digits.
Proof.
  apply (dynamic_bytes_value sample_entropy no_checksum (param_node "bytes")
           new_world).
  by vm_compute.
Defined.

Lemma string_value_witness :
  ∃ k chars, generate_value sample_entropy no_checksum (param_node "string") new_world
             = (Ok (VStr chars), advance (1 + Z.to_nat k) new_world, []) ∧
             5 ≤ k ≤ 15 ∧
             String.length chars = Z.to_nat k ∧
             drawn_from letters chars.
Proof.
  apply (string_value sample_entropy no_checksum (param_node "string") new_world).
  by vm_compute.
Defined.

Lemma address_value_witness :
  ∃ digits, generate_value sample_entropy no_checksum (param_node "address") new_world
            = (Ok (VStr (no_checksum (String.append "0x" digits))),
               advance 40 new_world, []) ∧
            String.length digits = 40%nat ∧
            drawn_from hexdigits digits.
Proof.
  apply (address_value sample_entropy no_checksum (param_node "address") new_world).
  by vm_compute.
Defined.

(** ** Parameters that make generation fail *)

Lemma eq_str_not_string j s : (∀ ty, j ≠ JStr ty) → eq_str j s = false.
Proof. intros H. destruct j; try done. by destruct (H s0). Qed.

Lemma generate_value_unusable entropy to_checksum_address param w :
  unusable param →
  ∃ e, generate_value entropy to_checksum_address param w = (Raise e, w, []).
Proof.
  intros [[e Hty]|[(j & Hty & Hj)|(ty & e & Hty & Hp & Hlen & Hint)]].
  - exists e. by apply generate_value_untyped.
  - exists AttributeError. rewrite (generate_value_typed _ _ _ _ _ Hty).
    unfold value_for. rewrite !eq_str_not_string by done. simpl.
    destruct j; try done. by destruct (Hj s).
  - exists e. rewrite (generate_value_typed _ _ _ _ _ Hty). unfold value_for.
    destruct (bytes_is_no_other_type ty Hp) as (-> & -> & -> & -> & ->). simpl.
    rewrite Hp. replace (5 <? String.length ty)%nat with true
      by (symmetry; by apply Nat.ltb_lt).
    by rewrite Hint.
Qed.

Lemma for_append_raises {A B} (body : A -> Py World B) (xs : list A) x :
  x ∈ xs →
  (∀ w, ∃ e, body x w = (Raise e, w, [])) →
  ∀ w, ∃ e w' l, for_append xs body w = (Raise e, w', l).
Proof.
  intros Hin Hx. induction xs as [|y xs IH]; intros w.
  - by apply elem_of_nil in Hin.
  - simpl. unfold bind at 1.
    apply elem_of_cons in Hin as [->|Hin].
    + destruct (Hx w) as (e & ->). by eauto.
    + destruct (body y w) as [[[b|e] w1] l1]; [|by eauto].
      destruct (IH Hin w1) as (e & w' & l & Hrun).
      unfold bind. rewrite Hrun. by eauto.
Qed.

(** X14. One parameter for which the loop raises makes the whole list
    fail: when a parameter has no type string, a type string that is no
    string, or one that starts with "bytes" and goes on with something
    that is no integer (as "bytes32[]"), [generate_inputs] answers [None]
    whatever the other parameters are, and the values generated for them
    are dropped. *)
Theorem unusable_parameter_fails_the_list (entropy : nat -> Z)
    (to_checksum_address : string -> string) (params : list json) (param : json)
    (w : World) :
  param ∈ params → unusable param →
  outcome (generate_inputs entropy to_checksum_address (JList params) w) = Ok None.
Proof.
  intros Hin Hun.
  destruct (for_append_raises
              (generate_value entropy to_checksum_address) params param Hin)
    with (w := w) as (e & w' & l & Hrun).
  { intros w0. by apply generate_value_unusable. }
  unfold generate_inputs, try_except. simpl lift. rewrite bind_ret_l.
  unfold bind. by rewrite Hrun.
Qed.

Lemma unusable_parameter_fails_the_list_witness :
  outcome (generate_inputs sample_entropy no_checksum
             (JList [param_node "uint256"; param_node "bytes32[]";
                     param_node "bool"]) new_world)
  = Ok None.
Proof.
  apply (unusable_parameter_fails_the_list sample_entropy no_checksum
           [param_node "uint256"; param_node "bytes32[]"; param_node "bool"]
           (param_node "bytes32[]") new_world).
  - right. by left.
  - right. right. exists "bytes32[]", ValueError.
    split_and!; [by vm_compute|reflexivity|simpl; lia|by vm_compute].
Defined.

(** X27. A type string "bytes" followed by an integer n with 2n above
    [sys.maxsize] makes [random.choices] raise [OverflowError] before any
    draw, and with it the whole list fails: [generate_inputs] answers
    [None] whatever the other parameters are. *)
Theorem oversized_bytes_fail_the_list (entropy : nat -> Z)
    (to_checksum_address : string -> string) (params : list json) (param : json)
    (ty : string) (n : Z) (w : World) :
  param ∈ params →
  type_string param = Ok (JStr ty) →
  String.prefix "bytes" ty = true →
  (5 < String.length ty)%nat →
  py_int (str_remove "bytes" 0 ty) 10 = Ok n →
  sys_maxsize < n * 2 →
  generate_value entropy to_checksum_address param w
  = (Raise OverflowError, w, []) ∧
  outcome (generate_inputs entropy to_checksum_address (JList params) w) = Ok None.
Proof.
  intros Hin Hty Hp Hlen Hint Hbig.
  assert (Hraise : ∀ w0, generate_value entropy to_checksum_address param w0
                         = (Raise OverflowError, w0, [])).
  { intros w0. rewrite (generate_value_typed _ _ _ _ _ Hty). unfold value_for.
    destruct (bytes_is_no_other_type ty Hp) as (-> & -> & -> & -> & ->). simpl.
    rewrite Hp. replace (5 <? String.length ty)%nat with true
      by (symmetry; by apply Nat.ltb_lt).
    rewrite Hint, bind_lift_Ok. unfold bind.
    by rewrite choices_overflow. }
  split; [apply Hraise|].
  destruct (for_append_raises
              (generate_value entropy to_checksum_address) params param Hin)
    with (w := w) as (e & w' & l & Hrun).
  { intros w0. exists OverflowError. apply Hraise. }
  unfold generate_inputs, try_except. simpl lift. rewrite bind_ret_l.
  unfold bind. by rewrite Hrun.
Qed.

Lemma oversized_bytes_fail_the_list_witness :
  generate_value sample_entropy no_checksum
    (param_node "bytes4611686018427387904") new_world
  = (Raise OverflowError, new_world, []) ∧
  outcome (generate_inputs sample_entropy no_checksum
             (JList [param_node "bool"; param_node "bytes4611686018427387904"])
             new_world)
  = Ok None.
Proof.
  apply (oversized_bytes_fail_the_list sample_entropy no_checksum
           [param_node "bool"; param_node "bytes4611686018427387904"]
           (param_node "bytes4611686018427387904")
           "bytes4611686018427387904" 4611686018427387904 new_world).
  - right. by left.
  - by vm_compute.
  - reflexivity.
  - simpl. lia.
  - by vm_compute.
  - by vm_compute.
Defined.

(** ** The plan *)

Lemma randint_inv entropy a b w n w' l :
  a ≤ b → randint entropy a b w = (Ok n, w', l) → a ≤ n ≤ b.
Proof.
  intros Hab Hrun.
  destruct (randint_run entropy a b w Hab) as (n0 & Hn0 & Hrange).
  rewrite Hn0 in Hrun. by simplify_eq.
Qed.

Lemma try_except_inv {S A} (m h : Py S A) s a s' l :
  try_except m h s = (Ok a, s', l) →
  m s = (Ok a, s', l) ∨
  ∃ e s1 l1 l2, m s = (Raise e, s1, l1) ∧ h s1 = (Ok a, s', l2) ∧ l = l1 ++ l2.
Proof.
  unfold try_except. destruct (m s) as [[[b|e] s1] l1].
  - intros [= -> -> ->]. by left.
  - destruct (h s1) as [[r s2] l2] eqn:Hh. intros [= -> -> <-].
    right. by exists e, s1, l1, l2.
Qed.

Lemma for_fold_invariant {A B} (P : B → Prop) (body : B -> A -> Py World B) xs :
  (∀ acc x w acc' w' l, P acc → body acc x w = (Ok acc', w', l) → P acc') →
  ∀ acc w acc' w' l,
    P acc → for_fold xs acc body w = (Ok acc', w', l) → P acc'.
Proof.
  intros Hbody. induction xs as [|x xs IH]; intros acc w acc' w' l Hacc Hrun.
  - simpl in Hrun. apply ret_inv in Hrun as (-> & _ & _). done.
  - simpl in Hrun. apply bind_inv in Hrun as (acc1 & w1 & l1 & l2 & Hx & Hrest & _).
    eapply IH; [|done]. by eapply Hbody.
Qed.

(** What one member of a contract adds to the plan. *)
Lemma visit_member_run entropy to_checksum_address acc vf w acc' w' l :
  visit_member entropy to_checksum_address acc vf w = (Ok acc', w', l) →
  (is_callable vf = true ∧
   ∃ fname generated ether,
     subscript vf "name" = Ok fname ∧
     acc'.1 = acc.1 ++ [{| name := fname; inputs := generated; value := ether |}] ∧
     (ether = 0 ∨ 10 ^ 15 ≤ ether ≤ 5 * 10 ^ 18)) ∨
  (is_callable vf = false ∧ acc'.1 = acc.1).
Proof.
  intros H. unfold visit_member in H. unfold is_callable.
  apply bind_inv in H as (nt & w1 & l1 & l2 & Hnt & H & _).
  apply lift_inv in Hnt as (Hnt & -> & _). rewrite Hnt.
  destruct (eq_str nt "FunctionDefinition"); simpl.
  2:{ apply ret_inv in H as (-> & _ & _). by right. }
  apply bind_inv in H as (kind & w1 & l3 & l4 & Hkind & H & _).
  apply lift_inv in Hkind as (Hkind & -> & _). rewrite Hkind.
  destruct (eq_str kind "function").
  - left. split; [done|].
    apply bind_inv in H as (fname & w1 & l5 & l6 & Hname & H & _).
    apply lift_inv in Hname as (Hname & -> & _).
    apply bind_inv in H as (ps & w1 & l7 & l8 & Hps & H & _).
    apply lift_inv in Hps as (Hps & -> & _).
    apply bind_inv in H as (pl & w1 & l9 & l10 & Hpl & H & _).
    apply lift_inv in Hpl as (Hpl & -> & _).
    apply bind_inv in H as (generated & w1 & l11 & l12 & Hgen & H & _).
    apply bind_inv in H as (sm & w2 & l13 & l14 & Hsm & H & _).
    apply lift_inv in Hsm as (Hsm & -> & _).
    apply bind_inv in H as (ether & w2 & l15 & l16 & Hether & H & _).
    apply ret_inv in H as (-> & _ & _).
    exists fname, generated, ether. split_and!; [done..|].
    destruct (eq_str sm "payable").
    + right. eapply randint_inv; [|done]. lia.
    + left. by apply ret_inv in Hether as (-> & _ & _).
  - right. split; [done|].
    destruct (eq_str kind "constructor").
    + apply bind_inv in H as (ps & w1 & l7 & l8 & Hps & H & _).
      apply bind_inv in H as (pl & w2 & l9 & l10 & Hpl & H & _).
      apply bind_inv in H as (generated & w3 & l11 & l12 & Hgen & H & _).
      by apply ret_inv in H as (-> & _ & _).
    + by apply ret_inv in H as (-> & _ & _).
Qed.

Lemma visit_members_run entropy to_checksum_address vfs : ∀ acc w acc' w' l,
  for_fold vfs acc (visit_member entropy to_checksum_address) w = (Ok acc', w', l) →
  ∃ added, acc'.1 = acc.1 ++ added ∧
           map name added = member_names vfs ∧
           Forall plan_value_ok added.
Proof.
  induction vfs as [|vf vfs IH]; intros acc w acc' w' l Hrun; simpl in Hrun.
  - apply ret_inv in Hrun as (-> & _ & _). exists []. by rewrite app_nil_r.
  - apply bind_inv in Hrun as (acc1 & w1 & l1 & l2 & Hvf & Hrest & _).
    destruct (IH _ _ _ _ _ Hrest) as (added & Hacc & Hnames & Hvals).
    apply visit_member_run in Hvf
      as [(Hc & fname & generated & ether & Hname & Hacc1 & Hether)|(Hc & Hacc1)].
    + exists ({| name := fname; inputs := generated; value := ether |} :: added).
      split_and!.
      * rewrite Hacc, Hacc1. by rewrite <- app_assoc.
      * unfold member_names. simpl. rewrite Hc, Hname. simpl.
        by rewrite Hnames.
      * by constructor.
    + exists added. split_and!; [by rewrite Hacc, Hacc1| |done].
      unfold member_names. simpl. by rewrite Hc.
Qed.

Lemma visit_node_run entropy to_checksum_address acc node w acc' w' l :
  visit_node entropy to_checksum_address acc node w = (Ok acc', w', l) →
  ∃ added, acc'.1 = acc.1 ++ added ∧
           map name added = member_names (contract_members node) ∧
           Forall plan_value_ok added.
Proof.
  intros H. unfold visit_node in H. unfold contract_members.
  apply bind_inv in H as (nt & w1 & l1 & l2 & Hnt & H & _).
  apply lift_inv in Hnt as (Hnt & -> & _). rewrite Hnt.
  destruct (eq_str nt "ContractDefinition").
  - apply bind_inv in H as (ms & w1 & l3 & l4 & Hms & H & _).
    apply lift_inv in Hms as (Hms & -> & _). rewrite Hms.
    apply bind_inv in H as (vfs & w1 & l5 & l6 & Hvfs & H & _).
    apply lift_inv in Hvfs as (Hvfs & -> & _). rewrite Hvfs.
    by eapply visit_members_run.
  - apply ret_inv in H as (-> & _ & _). exists []. by rewrite app_nil_r.
Qed.

Lemma visit_nodes_run entropy to_checksum_address nodes : ∀ acc w acc' w' l,
  for_fold nodes acc (visit_node entropy to_checksum_address) w = (Ok acc', w', l) →
  ∃ added, acc'.1 = acc.1 ++ added ∧
           map name added
           = concat (map (λ node, member_names (contract_members node)) nodes) ∧
           Forall plan_value_ok added.
Proof.
  induction nodes as [|node nodes IH]; intros acc w acc' w' l Hrun; simpl in Hrun.
  - apply ret_inv in Hrun as (-> & _ & _). exists []. by rewrite app_nil_r.
  - apply bind_inv in Hrun as (acc1 & w1 & l1 & l2 & Hnode & Hrest & _).
    destruct (IH _ _ _ _ _ Hrest) as (added2 & Hacc2 & Hnames2 & Hvals2).
    destruct (visit_node_run _ _ _ _ _ _ _ _ Hnode) as (added1 & Hacc1 & Hnames1 & Hvals1).
    exists (added1 ++ added2). split_and!.
    + rewrite Hacc2, Hacc1. by rewrite <- app_assoc.
    + simpl. by rewrite map_app, Hnames1, Hnames2.
    + by apply Forall_app.
Qed.

Lemma generate_test_suite_run entropy to_checksum_address ast w fs ci :
  outcome (generate_test_suite entropy to_checksum_address ast w) = Ok (Some fs, ci) →
  map name fs = declared_functions ast ∧ Forall plan_value_ok fs.
Proof.
  unfold outcome.
  destruct (generate_test_suite entropy to_checksum_address ast w)
    as [[r w'] l] eqn:Hrun. simpl. intros ->.
  unfold generate_test_suite in Hrun.
  apply try_except_inv in Hrun as [Hrun|(e & w1 & l1 & l2 & _ & Hh & _)].
  2:{ by apply ret_inv in Hh as (Hh & _ & _). }
  unfold declared_functions.
  apply bind_inv in Hrun as (nodes & w1 & l1 & l2 & Hnodes & Hrun & _).
  apply lift_inv in Hnodes as (Hnodes & -> & _). rewrite Hnodes.
  apply bind_inv in Hrun as (ns & w1 & l3 & l4 & Hns & Hrun & _).
  apply lift_inv in Hns as (Hns & -> & _). rewrite Hns.
  apply bind_inv in Hrun as (suite & w1 & l5 & l6 & Hfold & Hrun & _).
  apply ret_inv in Hrun as (Heq & _ & _). injection Heq as -> ->.
  destruct (visit_nodes_run _ _ _ _ _ _ _ _ Hfold) as (added & Hacc & Hnames & Hvals).
  simpl in Hacc. by rewrite Hacc.
Qed.

(** X15. When the plan is built it has one call per function definition of
    kind "function", under its name, in the order of the source and over
    all the contracts of the file together. Constructors, fallback and
    receive functions, and every other member give no call; the
    visibility of a function is not looked at. *)
Theorem plan_lists_every_function (entropy : nat -> Z)
    (to_checksum_address : string -> string) (ast : json) (w : World)
    (fs : list FunctionPlan) (ci : option (list PyVal)) :
  outcome (generate_test_suite entropy to_checksum_address ast w) = Ok (Some fs, ci) →
  map name fs = declared_functions ast.
Proof. intros H. by apply generate_test_suite_run in H as [? _]. Qed.

Lemma plan_lists_every_function_witness :
  map name [deposit_plan; withdraw_plan] = declared_functions ast_two_functions.
Proof.
  apply (plan_lists_every_function zero_entropy no_checksum ast_two_functions
           new_world [deposit_plan; withdraw_plan] None).
  by vm_compute.
Defined.

(** X16. When the plan is built, the ether sent with each call is 0 or lies
    between 10^15 and 5 * 10^18 wei. *)
Theorem plan_values_are_bounded (entropy : nat -> Z)
    (to_checksum_address : string -> string) (ast : json) (w : World)
    (fs : list FunctionPlan) (ci : option (list PyVal)) :
  outcome (generate_test_suite entropy to_checksum_address ast w) = Ok (Some fs, ci) →
  Forall plan_value_ok fs.
Proof. intros H. by apply generate_test_suite_run in H as [_ ?]. Qed.

Lemma plan_values_are_bounded_witness :
  Forall plan_value_ok [deposit_plan; withdraw_plan].
Proof.
  apply (plan_values_are_bounded zero_entropy no_checksum ast_two_functions
           new_world [deposit_plan; withdraw_plan] None).
  by vm_compute.
Defined.

(** ** What a computation keeps, and what it logs *)

Create HintDb keeps discriminated.

Lemma keeps_ret {A X} (f : World → X) (a : A) : keeps f (ret a).
Proof. by intros w. Qed.

Lemma keeps_raise {A X} (f : World → X) e : keeps f (@raise World A e).
Proof. by intros w. Qed.

Lemma keeps_lift {A X} (f : World → X) (r : result A) : keeps f (lift r).
Proof. by destruct r; intros w. Qed.

Lemma keeps_get {X} (f : World → X) : keeps f (@get World).
Proof. by intros w. Qed.

Lemma keeps_bind {A B X} (f : World → X) (m : Py World A) (k : A -> Py World B) :
  keeps f m → (∀ a, keeps f (k a)) → keeps f (bind m k).
Proof.
  intros Hm Hk w. specialize (Hm w). unfold bind, final in *.
  destruct (m w) as [[[a|e] w1] l1]; simpl in *; [|done].
  specialize (Hk a w1). unfold final in Hk.
  destruct (k a w1) as [[r w2] l2]. simpl in *. congruence.
Qed.

Lemma keeps_try_except {A X} (f : World → X) (m h : Py World A) :
  keeps f m → keeps f h → keeps f (try_except m h).
Proof.
  intros Hm Hh w. specialize (Hm w). unfold try_except, final in *.
  destruct (m w) as [[[a|e] w1] l1]; simpl in *; [done|].
  specialize (Hh w1). unfold final in Hh.
  destruct (h w1) as [[r w2] l2]. simpl in *. congruence.
Qed.

Lemma silent_ret {A} (a : A) : silent (ret a).
Proof. by intros w. Qed.

Lemma silent_raise {A} e : silent (@raise World A e).
Proof. by intros w. Qed.

Lemma silent_lift {A} (r : result A) : silent (lift r).
Proof. by destruct r; intros w. Qed.

Lemma silent_get : silent (@get World).
Proof. by intros w. Qed.

Lemma silent_bind {A B} (m : Py World A) (k : A -> Py World B) :
  silent m → (∀ a, silent (k a)) → silent (bind m k).
Proof.
  intros Hm Hk w. specialize (Hm w). unfold bind, logged in *.
  destruct (m w) as [[[a|e] w1] l1]; simpl in *; [|done].
  specialize (Hk a w1). unfold logged in Hk.
  destruct (k a w1) as [[r w2] l2]. simpl in *. by subst.
Qed.

Lemma silent_try_except {A} (m h : Py World A) :
  silent m → silent h → silent (try_except m h).
Proof.
  intros Hm Hh w. specialize (Hm w). unfold try_except, logged in *.
  destruct (m w) as [[[a|e] w1] l1]; simpl in *; [done|].
  specialize (Hh w1). unfold logged in Hh.
  destruct (h w1) as [[r w2] l2]. simpl in *. by subst.
Qed.

#[global] Hint Resolve keeps_ret keeps_raise keeps_lift keeps_get
  silent_ret silent_raise silent_lift silent_get : keeps.

Ltac keeps_step :=
  match goal with
  | |- keeps _ (bind _ _) => apply keeps_bind; [|intros ?]
  | |- keeps _ (try_except _ _) => apply keeps_try_except
  | |- silent (bind _ _) => apply silent_bind; [|intros ?]
  | |- silent (try_except _ _) => apply silent_try_except
  | |- keeps _ (if ?b then _ else _) => destruct b
  | |- keeps _ (match ?x with _ => _ end) => destruct x
  | |- silent (if ?b then _ else _) => destruct b
  | |- silent (match ?x with _ => _ end) => destruct x
  | |- keeps _ _ => solve [auto with keeps]
  | |- silent _ => solve [auto with keeps]
  end.
Ltac keeps_all := repeat keeps_step.

Lemma keeps_for_each {A X} (f : World → X) (xs : list A) (body : A -> Py World unit) :
  (∀ x, keeps f (body x)) → keeps f (for_each xs body).
Proof. intros Hb. induction xs as [|x xs IH]; simpl; keeps_all. Qed.

Lemma keeps_for_append {A B X} (f : World → X) (xs : list A) (body : A -> Py World B) :
  (∀ x, keeps f (body x)) → keeps f (for_append xs body).
Proof. intros Hb. induction xs as [|x xs IH]; simpl; keeps_all. Qed.

Lemma keeps_for_fold {A B X} (f : World → X) (xs : list A)
    (body : B -> A -> Py World B) :
  (∀ acc x, keeps f (body acc x)) → ∀ acc, keeps f (for_fold xs acc body).
Proof. intros Hb. induction xs as [|x xs IH]; intros acc; simpl; keeps_all. Qed.

Lemma silent_for_each {A} (xs : list A) (body : A -> Py World unit) :
  (∀ x, silent (body x)) → silent (for_each xs body).
Proof. intros Hb. induction xs as [|x xs IH]; simpl; keeps_all. Qed.

Lemma silent_for_append {A B} (xs : list A) (body : A -> Py World B) :
  (∀ x, silent (body x)) → silent (for_append xs body).
Proof. intros Hb. induction xs as [|x xs IH]; simpl; keeps_all. Qed.

Lemma silent_for_fold {A B} (xs : list A) (body : B -> A -> Py World B) :
  (∀ acc x, silent (body acc x)) → ∀ acc, silent (for_fold xs acc body).
Proof. intros Hb. induction xs as [|x xs IH]; intros acc; simpl; keeps_all. Qed.

Lemma keeps_requests_draw entropy : keeps requests (draw entropy).
Proof. by intros w. Qed.

Lemma silent_draw entropy : silent (draw entropy).
Proof. by intros w. Qed.

Lemma silent_request q : silent (request q).
Proof. by intros w. Qed.

#[global] Hint Resolve keeps_requests_draw silent_draw silent_request : keeps.

Lemma keeps_requests_randint entropy a b : keeps requests (randint entropy a b).
Proof. unfold randint. keeps_all. Qed.
Lemma silent_randint entropy a b : silent (randint entropy a b).
Proof. unfold randint. keeps_all. Qed.
#[global] Hint Resolve keeps_requests_randint silent_randint : keeps.

Lemma keeps_requests_choice {A} entropy (d : A) seq :
  keeps requests (choice entropy d seq).
Proof. unfold choice. keeps_all. Qed.
Lemma silent_choice {A} entropy (d : A) seq : silent (choice entropy d seq).
Proof. unfold choice. keeps_all. Qed.
#[global] Hint Resolve keeps_requests_choice silent_choice : keeps.

Lemma keeps_requests_choices entropy population k :
  keeps requests (choices entropy population k).
Proof.
  unfold choices. induction (Z.to_nat k) as [|n IH]; simpl; keeps_all.
Qed.
Lemma silent_choices entropy population k : silent (choices entropy population k).
Proof.
  unfold choices. induction (Z.to_nat k) as [|n IH]; simpl; keeps_all.
Qed.
#[global] Hint Resolve keeps_requests_choices silent_choices : keeps.

Lemma keeps_requests_generate_value entropy to_checksum_address param :
  keeps requests (generate_value entropy to_checksum_address param).
Proof. unfold generate_value. keeps_all. Qed.
Lemma silent_generate_value entropy to_checksum_address param :
  silent (generate_value entropy to_checksum_address param).
Proof. unfold generate_value. keeps_all. Qed.
#[global] Hint Resolve keeps_requests_generate_value silent_generate_value : keeps.

Lemma keeps_requests_generate_inputs entropy to_checksum_address param_list :
  keeps requests (generate_inputs entropy to_checksum_address param_list).
Proof.
  unfold generate_inputs. keeps_all. apply keeps_for_append. auto with keeps.
Qed.
Lemma silent_generate_inputs entropy to_checksum_address param_list :
  silent (generate_inputs entropy to_checksum_address param_list).
Proof.
  unfold generate_inputs. keeps_all. apply silent_for_append. auto with keeps.
Qed.
#[global] Hint Resolve keeps_requests_generate_inputs silent_generate_inputs : keeps.

Lemma keeps_requests_visit_member entropy to_checksum_address acc vf :
  keeps requests (visit_member entropy to_checksum_address acc vf).
Proof. unfold visit_member. keeps_all. Qed.
Lemma silent_visit_member entropy to_checksum_address acc vf :
  silent (visit_member entropy to_checksum_address acc vf).
Proof. unfold visit_member. keeps_all. Qed.
#[global] Hint Resolve keeps_requests_visit_member silent_visit_member : keeps.

Lemma keeps_requests_visit_node entropy to_checksum_address acc node :
  keeps requests (visit_node entropy to_checksum_address acc node).
Proof.
  unfold visit_node. keeps_all. apply keeps_for_fold. auto with keeps.
Qed.
Lemma silent_visit_node entropy to_checksum_address acc node :
  silent (visit_node entropy to_checksum_address acc node).
Proof.
  unfold visit_node. keeps_all. apply silent_for_fold. auto with keeps.
Qed.
#[global] Hint Resolve keeps_requests_visit_node silent_visit_node : keeps.

Lemma keeps_requests_generate_test_suite entropy to_checksum_address ast :
  keeps requests (generate_test_suite entropy to_checksum_address ast).
Proof.
  unfold generate_test_suite. keeps_all. apply keeps_for_fold. auto with keeps.
Qed.
Lemma silent_generate_test_suite entropy to_checksum_address ast :
  silent (generate_test_suite entropy to_checksum_address ast).
Proof.
  unfold generate_test_suite. keeps_all. apply silent_for_fold. auto with keeps.
Qed.

Lemma generate_test_suite_returns entropy to_checksum_address ast w :
  ∃ suite, outcome (generate_test_suite entropy to_checksum_address ast w) = Ok suite.
Proof.
  unfold generate_test_suite, try_except, outcome.
  destruct (bind _ _ w) as [[[suite|e] w1] l1]; simpl; by eauto.
Qed.

Lemma plan_generation_effects entropy to_checksum_address ast w :
  logged (generate_test_suite entropy to_checksum_address ast w) = [] ∧
  requests (final (generate_test_suite entropy to_checksum_address ast w))
  = requests w ∧
  detector (final (generate_test_suite entropy to_checksum_address ast w))
  = detector w.
Proof.
  split_and!.
  - apply silent_generate_test_suite.
  - apply keeps_requests_generate_test_suite.
  - apply pd_generate_test_suite.
Qed.

(** X17. Building the plan never raises, whatever the syntax tree is: it
    answers a plan or [(None, None)]. It logs no finding, asks nothing of
    the node and leaves the detector alone; all it uses up is entropy. *)
Theorem plan_generation_has_no_effect (entropy : nat -> Z)
    (to_checksum_address : string -> string) (ast : json) (w : World) :
  (∃ suite, outcome (generate_test_suite entropy to_checksum_address ast w)
            = Ok suite) ∧
  logged (generate_test_suite entropy to_checksum_address ast w) = [] ∧
  requests (final (generate_test_suite entropy to_checksum_address ast w))
  = requests w ∧
  detector (final (generate_test_suite entropy to_checksum_address ast w))
  = detector w.
Proof.
  split_and!.
  - apply generate_test_suite_returns.
  - apply silent_generate_test_suite.
  - apply keeps_requests_generate_test_suite.
  - apply pd_generate_test_suite.
Qed.

(** ** Calls and rounds *)

Lemma silent_execute_transaction node_transacts contract function :
  silent (execute_transaction node_transacts contract function).
Proof. unfold execute_transaction. keeps_all. Qed.

Lemma silent_debug_transaction node_traces receipt :
  silent (debug_transaction node_traces receipt).
Proof. unfold debug_transaction. keeps_all. Qed.

#[global] Hint Resolve silent_execute_transaction silent_debug_transaction : keeps.

Lemma silent_trace_to_analyse node_transacts node_traces contract function :
  silent (trace_to_analyse node_transacts node_traces contract function).
Proof. unfold trace_to_analyse. keeps_all. Qed.

(** X18. A call that is not analysed, because no receipt came back or
    because the transaction reverted, logs nothing and leaves the detector
    as it was; the world changes by the requests of that call only. *)
Theorem unanalysed_call_is_silent
    (node_transacts : list Request -> option TxReceipt)
    (node_traces : list Request -> result DebugResult)
    (contract : Contract) (f : FunctionPlan) (w : World) :
  outcome (trace_to_analyse node_transacts node_traces contract f w) = Ok None →
  execute_function node_transacts node_traces contract f w
  = (Ok tt, final (trace_to_analyse node_transacts node_traces contract f w), []) ∧
  detector (final (execute_function node_transacts node_traces contract f w))
  = detector w.
Proof.
  intros Hout.
  assert (Heq : execute_function node_transacts node_traces contract f w
    = (Ok tt, final (trace_to_analyse node_transacts node_traces contract f w), [])).
  { pose proof (silent_trace_to_analyse node_transacts node_traces contract f w)
      as Hlog.
    unfold execute_function, bind. unfold outcome, logged, final in *.
    destruct (trace_to_analyse _ _ _ _ w) as [[r w1] l1]. simpl in *.
    by subst. }
  split; [done|]. rewrite Heq. apply pd_trace_to_analyse.
Qed.

Lemma unanalysed_call_is_silent_witness :
  detector (final (execute_function always_mines (always_reverts two_risky_calls)
                     sample_contract withdraw_plan new_world))
  = detector new_world.
Proof.
  apply (unanalysed_call_is_silent always_mines (always_reverts two_risky_calls)
           sample_contract withdraw_plan new_world).
  by vm_compute.
Defined.

Lemma deploys_cons q reqs :
  deploys (q :: reqs) = ((if is_deploy q then 1 else 0) + deploys reqs)%nat.
Proof.
  unfold deploys. rewrite filter_cons.
  destruct (is_deploy q); by case_decide.
Qed.

Lemma keeps_deploys_of_requests {A} (m : Py World A) :
  keeps requests m → keeps (λ w, deploys (requests w)) m.
Proof. intros H w. by rewrite H. Qed.

Lemma keeps_deploys_execute_transaction node_transacts contract function :
  keeps (λ w, deploys (requests w))
    (execute_transaction node_transacts contract function).
Proof.
  unfold execute_transaction. destruct (inputs function); [|by intros w].
  by intros w.
Qed.

Lemma keeps_deploys_debug_transaction node_traces receipt :
  keeps (λ w, deploys (requests w)) (debug_transaction node_traces receipt).
Proof.
  intros w. unfold debug_transaction, bind, request, modify, get. simpl.
  by destruct (node_traces _).
Qed.

Lemma keeps_requests_on_detector {A} (m : Py VulnerabilityDetector A) :
  keeps requests (on_detector m).
Proof. intros w. by rewrite on_detector_run. Qed.

#[global] Hint Resolve keeps_deploys_execute_transaction
  keeps_deploys_debug_transaction : keeps.

Lemma keeps_deploys_execute_function node_transacts node_traces contract f :
  keeps (λ w, deploys (requests w))
    (execute_function node_transacts node_traces contract f).
Proof.
  unfold execute_function, trace_to_analyse. keeps_all.
  apply keeps_deploys_of_requests, keeps_requests_on_detector.
Qed.

Lemma keeps_deploys_execute_functions node_transacts node_traces fs contract :
  keeps (λ w, deploys (requests w))
    (execute_functions node_transacts node_traces fs contract).
Proof.
  destruct fs as [fs|]; [|by intros w]. simpl.
  apply keeps_for_each. intros f. apply keeps_deploys_execute_function.
Qed.

Lemma deploy_smart_contract_run node_deploys args w :
  deploy_smart_contract node_deploys args w
  = (Ok (node_deploys (Deploy args :: requests w)),
     {| detector := detector w; draws := draws w;
        requests := Deploy args :: requests w |}, []).
Proof. done. Qed.

Section Rounds.

Variable entropy : nat -> Z.
Variable to_checksum_address : string -> string.
Variable node_deploys : list Request -> option Contract.
Variable node_transacts : list Request -> option TxReceipt.
Variable node_traces : list Request -> result DebugResult.
Variable ast : json.

Lemma round_deploys_once w :
  deploys (requests (final (round entropy to_checksum_address node_deploys
                              node_transacts node_traces ast w)))
  = S (deploys (requests w)).
Proof.
  unfold round, bind.
  destruct (generate_test_suite_returns entropy to_checksum_address ast w)
    as (suite & Hsuite).
  pose proof (keeps_requests_generate_test_suite entropy to_checksum_address ast w)
    as Hreq.
  unfold outcome, final in *.
  destruct (generate_test_suite entropy to_checksum_address ast w)
    as [[r w1] l1]. simpl in *. subst r.
  destruct (node_deploys _) as [contract|].
  - pose proof (keeps_deploys_execute_functions node_transacts node_traces suite.1
                  contract {| detector := detector w1; draws := draws w1;
                              requests := Deploy suite.2 :: requests w1 |}) as Hk.
    unfold final in Hk.
    destruct (execute_functions _ _ _ _ _) as [[r w2] l2]. simpl in *.
    rewrite Hk, deploys_cons, Hreq. done.
  - simpl. by rewrite deploys_cons, Hreq.
Qed.

Lemma rounds_deploy k : ∀ a w,
  match outcome (for_each (seq a k)
                   (fun _ => round entropy to_checksum_address node_deploys
                               node_transacts node_traces ast) w) with
  | Ok _ =>
      deploys (requests (final (for_each (seq a k)
                   (fun _ => round entropy to_checksum_address node_deploys
                               node_transacts node_traces ast) w)))
      = (deploys (requests w) + k)%nat
  | Raise _ =>
      (deploys (requests w)
       < deploys (requests (final (for_each (seq a k)
                   (fun _ => round entropy to_checksum_address node_deploys
                               node_transacts node_traces ast) w)))
       ≤ deploys (requests w) + k)%nat
  end.
Proof.
  induction k as [|k IH]; intros a w; simpl.
  - unfold outcome, final, ret. simpl. lia.
  - pose proof (round_deploys_once w) as Hround.
    unfold bind, outcome, final in *.
    destruct (round _ _ _ _ _ _ w) as [[[[]|e] w1] l1]; simpl in *; [|lia].
    specialize (IH (S a) w1).
    destruct (for_each _ _ w1) as [[[[]|e] w2] l2]; simpl in *; lia.
Qed.

(** X19. Every round asks for exactly one deployment, whether the plan
    could be built or not. A run that reaches its end has asked for as
    many deployments as rounds were asked (none for a count of 0 or
    below); a run cut short by an exception has asked for at least one
    and for no more than that. *)
Theorem one_deployment_per_round (num_tests : Z) (w : World) :
  match outcome (run entropy to_checksum_address node_deploys node_transacts
                   node_traces ast num_tests w) with
  | Ok _ =>
      deploys (requests (final (run entropy to_checksum_address node_deploys
                                  node_transacts node_traces ast num_tests w)))
      = (deploys (requests w) + Z.to_nat num_tests)%nat
  | Raise _ =>
      (deploys (requests w)
       < deploys (requests (final (run entropy to_checksum_address node_deploys
                                     node_transacts node_traces ast num_tests w)))
       ≤ deploys (requests w) + Z.to_nat num_tests)%nat
  end.
Proof. unfold run. apply rounds_deploy. Qed.

(** X20. When the node does not deploy the contract, the round ends
    there: no function is executed, no trace is asked for, nothing is
    logged, and the round returns normally, so that the next round
    follows. *)
Theorem failed_deployment_skips_the_round (w : World)
    (suite : option (list FunctionPlan) * option (list PyVal)) :
  outcome (generate_test_suite entropy to_checksum_address ast w) = Ok suite →
  node_deploys (Deploy suite.2 :: requests w) = None →
  round entropy to_checksum_address node_deploys node_transacts node_traces ast w
  = (Ok tt,
     {| detector := detector w;
        draws := draws (final (generate_test_suite entropy to_checksum_address
                                 ast w));
        requests := Deploy suite.2 :: requests w |},
     []).
Proof.
  intros Hsuite Hnone.
  destruct (plan_generation_effects entropy to_checksum_address ast w)
    as (Hlog & Hreq & Hdet).
  unfold round, bind. unfold outcome, final, logged in *.
  destruct (generate_test_suite entropy to_checksum_address ast w)
    as [[r w1] l1]. simpl in *. subst.
  rewrite Hreq, Hnone, Hdet. done.
Qed.

End Rounds.

Lemma failed_deployment_skips_the_round_witness :
  round sample_entropy no_checksum never_deploys always_mines
    (always_traces two_risky_calls) ast_two_functions new_world
  = (Ok tt,
     {| detector := detector new_world;
        draws := draws (final (generate_test_suite sample_entropy no_checksum
                                 ast_two_functions new_world));
        requests := [Deploy None] |},
     []).
Proof.
  apply (failed_deployment_skips_the_round sample_entropy no_checksum
           never_deploys always_mines (always_traces two_risky_calls)
           ast_two_functions new_world
           (match outcome (generate_test_suite sample_entropy no_checksum
                             ast_two_functions new_world) with
            | Ok suite => suite
            | Raise _ => (None, None)
            end)).
  - by vm_compute.
  - reflexivity.
Defined.

(** ** The version of the compiler and the arguments of the program *)

Lemma span_digits_spec (l d rest : list ascii) :
  span_digits l = (d, rest) →
  l = d ++ rest ∧ Forall (λ c, is_digit c = true) d.
Proof.
  revert d rest. induction l as [|c l IH]; simpl; intros d rest Heq.
  - by simplify_eq.
  - destruct (is_digit c) eqn:Hc; [|by simplify_eq].
    destruct (span_digits l) as [d' rest'] eqn:Hl. simplify_eq.
    destruct (IH _ _ eq_refl) as [-> Hd]. split; [done|].
    by apply Forall_cons_2.
Qed.

Lemma span_digits_app (d rest : list ascii) :
  Forall (λ c, is_digit c = true) d →
  match rest with c :: _ => is_digit c = false | [] => True end →
  span_digits (d ++ rest) = (d, rest).
Proof.
  intros Hd Hrest. induction Hd as [|c d Hc Hd IH]; simpl.
  - destruct rest as [|c r]; [done|]. simpl. by rewrite Hrest.
  - by rewrite Hc, IH.
Qed.

Lemma strip_prefix_spec (p l r : list ascii) :
  strip_prefix p l = Some r → l = p ++ r.
Proof.
  revert l. induction p as [|a p IH]; intros [|b l]; simpl; intros Heq;
    simplify_eq; try done.
  destruct (Ascii.eqb_spec a b) as [->|]; [|done].
  by rewrite (IH _ Heq).
Qed.

Lemma strip_prefix_app (p r : list ascii) : strip_prefix p (p ++ r) = Some r.
Proof.
  induction p as [|a p IH]; simpl; [done|]. by rewrite Ascii.eqb_refl.
Qed.

Lemma match_version_spec (l v : list ascii) :
  match_version l = Some v →
  version_shape v ∧ ∃ post, l = v ++ ";"%char :: post.
Proof.
  unfold match_version. intros Heq.
  destruct (span_digits l) as [d1 r1] eqn:H1.
  destruct d1 as [|c1 d1]; [done|].
  destruct r1 as [|x1 r1]; [done|].
  destruct (Ascii.eqb_spec x1 "."%char) as [->|Hx1];
    [|by destruct x1 as [[] [] [] [] [] [] [] []]].
  destruct (span_digits r1) as [d2 r2] eqn:H2.
  destruct d2 as [|c2 d2];
    [by destruct r1 as [|? ?]; simpl in *; simplify_eq|].
  destruct r2 as [|x2 r2]; [done|].
  destruct (Ascii.eqb_spec x2 "."%char) as [->|Hx2];
    [|by destruct x2 as [[] [] [] [] [] [] [] []]].
  destruct (span_digits r2) as [d3 r3] eqn:H3.
  destruct d3 as [|c3 d3]; [done|].
  destruct r3 as [|x3 r3]; [done|].
  destruct (Ascii.eqb_spec x3 ";"%char) as [->|Hx3];
    [|by destruct x3 as [[] [] [] [] [] [] [] []]].
  simpl in Heq. simplify_eq.
  apply span_digits_spec in H1 as [-> Hd1].
  apply span_digits_spec in H2 as [-> Hd2].
  apply span_digits_spec in H3 as [-> Hd3].
  split.
  - exists (c1 :: d1), (c2 :: d2), (c3 :: d3). by split_and!.
  - exists r3. simpl. rewrite <- !app_assoc. simpl.
    rewrite <- !app_assoc. done.
Qed.

Lemma match_version_shape (v post : list ascii) :
  version_shape v → match_version (v ++ ";"%char :: post) = Some v.
Proof.
  intros (d1 & d2 & d3 & -> & H1 & H2 & H3 & Hd1 & Hd2 & Hd3).
  unfold match_version.
  replace ((d1 ++ "."%char :: d2 ++ "."%char :: d3) ++ ";"%char :: post)
    with (d1 ++ "."%char :: d2 ++ "."%char :: d3 ++ ";"%char :: post)
    by (rewrite <- !app_assoc; simpl; by rewrite <- !app_assoc).
  rewrite (span_digits_app d1) by done.
  destruct d1 as [|c1 d1]; [done|].
  rewrite (span_digits_app d2) by done.
  destruct d2 as [|c2 d2]; [done|].
  rewrite (span_digits_app d3) by done.
  by destruct d3 as [|c3 d3].
Qed.

Lemma version_starts_with_digit (v : list ascii) :
  version_shape v → ∃ c v', v = c :: v' ∧ is_digit c = true.
Proof.
  intros (d1 & d2 & d3 & -> & H1 & _ & _ & Hd1 & _).
  destruct d1 as [|c d1]; [done|]. inversion Hd1; subst.
  by exists c, (d1 ++ "."%char :: d2 ++ "."%char :: d3).
Qed.

Lemma match_version_no_digit (c : ascii) (l : list ascii) :
  is_digit c = false → match_version (c :: l) = None.
Proof. intros Hc. unfold match_version. simpl. by rewrite Hc. Qed.

Lemma first_match_spec (ops : list (list ascii)) (l v : list ascii) :
  first_match ops l = Some v →
  ∃ op r, op ∈ ops ∧ l = op ++ r ∧ match_version r = Some v.
Proof.
  induction ops as [|o ops IH]; simpl; [done|]. intros Heq.
  destruct (strip_prefix o l) as [r|] eqn:Hr.
  - destruct (match_version r) as [v'|] eqn:Hv.
    + simplify_eq. exists o, r. split_and!; [set_solver| |done].
      by apply strip_prefix_spec.
    + destruct (IH Heq) as (op & r' & ? & ? & ?). exists op, r'.
      split_and!; [set_solver|done|done].
  - destruct (IH Heq) as (op & r' & ? & ? & ?). exists op, r'.
    split_and!; [set_solver|done|done].
Qed.

Lemma first_match_operator (op v post : list ascii) :
  op ∈ operators → version_shape v →
  first_match operators (op ++ v ++ ";"%char :: post) = Some v.
Proof.
  intros Hop Hv. pose proof (match_version_shape v post Hv) as Hm.
  destruct (version_starts_with_digit v Hv) as (c & v' & -> & Hc).
  assert (Hcaret : Ascii.eqb "^" c = false).
  { destruct (Ascii.eqb_spec "^"%char c) as [<-|]; [by vm_compute in Hc|done]. }
  assert (Hequal : Ascii.eqb "=" c = false).
  { destruct (Ascii.eqb_spec "="%char c) as [<-|]; [by vm_compute in Hc|done]. }
  assert (Hgt : Ascii.eqb ">" c = false).
  { destruct (Ascii.eqb_spec ">"%char c) as [<-|]; [by vm_compute in Hc|done]. }
  assert (Hlt : Ascii.eqb "<" c = false).
  { destruct (Ascii.eqb_spec "<"%char c) as [<-|]; [by vm_compute in Hc|done]. }
  unfold operators in *. cbn [app] in Hm.
  repeat (apply elem_of_cons in Hop as [->|Hop]); [..|by apply elem_of_nil in Hop];
    repeat (progress
      (cbn [first_match strip_prefix app];
       rewrite ?Hcaret, ?Hequal, ?Hgt, ?Hlt, ?Ascii.eqb_refl;
       rewrite ?(match_version_no_digit ">"), ?(match_version_no_digit "<")
         by reflexivity;
       repeat match goal with
              | |- context [Ascii.eqb ?a ?b] =>
                  tryif is_var b then fail
                  else (let r := eval vm_compute in (Ascii.eqb a b) in
                        change (Ascii.eqb a b) with r)
              end));
    by rewrite Hm.
Qed.

Lemma search_pragma_spec (l v : list ascii) :
  search_pragma l = Some v →
  ∃ pre l', l = pre ++ l' ∧ match_pragma l' = Some v.
Proof.
  induction l as [|c l IH]; cbn [search_pragma]; intros Heq.
  - by vm_compute in Heq.
  - destruct (match_pragma (c :: l)) eqn:Hm.
    + simplify_eq. by exists [], (c :: l).
    + destruct (IH Heq) as (pre & l' & -> & ?). by exists (c :: pre), l'.
Qed.

Lemma search_pragma_finds (pre l : list ascii) :
  is_Some (match_pragma l) → is_Some (search_pragma (pre ++ l)).
Proof.
  intros [v Hv]. induction pre as [|c pre IH]; cbn [search_pragma app].
  - destruct l; [by vm_compute in Hv|].
    cbn [search_pragma]. rewrite Hv. by eexists.
  - destruct (match_pragma (c :: pre ++ l)); [by eexists|done].
Qed.

Lemma match_pragma_operator (op v post : list ascii) :
  op ∈ operators → version_shape v →
  match_pragma (pragma_header ++ op ++ v ++ ";"%char :: post) = Some v.
Proof.
  intros Hop Hv. unfold match_pragma.
  rewrite strip_prefix_app. by apply first_match_operator.
Qed.

Lemma pragma_version_inv (source_code v : string) :
  pragma_version source_code = Some v →
  search_pragma (list_ascii_of_string source_code)
  = Some (list_ascii_of_string v).
Proof.
  unfold pragma_version. intros Heq.
  destruct (search_pragma _) as [lv|]; simpl in Heq; [|done].
  simplify_eq. by rewrite list_ascii_of_string_of_list_ascii.
Qed.

(** X21. The version that [compile_smart_contract] takes from a source is
    written in it: somewhere the source reads "pragma solidity ", one of
    the six operators (or none), the version, and a semicolon; and the
    version is three runs of digits separated by dots. *)
Theorem found_version_is_written (source_code v : string) :
  pragma_version source_code = Some v →
  ∃ pre op post,
    list_ascii_of_string source_code
    = pre ++ pragma_header ++ op ++ list_ascii_of_string v ++ ";"%char :: post ∧
    op ∈ operators ∧
    version_shape (list_ascii_of_string v).
Proof.
  intros Heq. apply pragma_version_inv in Heq.
  apply search_pragma_spec in Heq as (pre & l & Hl & Hm).
  unfold match_pragma in Hm.
  destruct (strip_prefix pragma_header l) as [r|] eqn:Hr; [|done].
  apply strip_prefix_spec in Hr as ->.
  apply first_match_spec in Hm as (op & r' & Hop & -> & Hv).
  apply match_version_spec in Hv as (Hshape & post & ->).
  by exists pre, op, post.
Qed.

Lemma found_version_is_written_witness :
  ∃ pre op post,
    list_ascii_of_string sample_source
    = pre ++ pragma_header ++ op ++ list_ascii_of_string "0.8.20"
          ++ ";"%char :: post ∧
    op ∈ operators ∧
    version_shape (list_ascii_of_string "0.8.20").
Proof. apply (found_version_is_written sample_source "0.8.20"). reflexivity. Defined.

(** X22. A pragma of that form is found: a source that begins with it
    gives its version, whatever the operator, and a source that has it
    anywhere gives some version. *)
Theorem written_version_is_found (op v post : list ascii) :
  op ∈ operators → version_shape v →
  pragma_version
    (string_of_list_ascii (pragma_header ++ op ++ v ++ ";"%char :: post))
  = Some (string_of_list_ascii v) ∧
  ∀ pre,
    is_Some (pragma_version
               (string_of_list_ascii
                  (pre ++ pragma_header ++ op ++ v ++ ";"%char :: post))).
Proof.
  intros Hop Hv. pose proof (match_pragma_operator op v post Hop Hv) as Hm.
  split.
  - unfold pragma_version. rewrite list_ascii_of_string_of_list_ascii.
    destruct (pragma_header ++ op ++ v ++ ";"%char :: post) as [|c l] eqn:Hl;
      [by vm_compute in Hm|].
    cbn [search_pragma]. by rewrite Hm.
  - intros pre. unfold pragma_version.
    rewrite list_ascii_of_string_of_list_ascii.
    destruct (search_pragma_finds pre _ (mk_is_Some _ _ Hm)) as [v' ->].
    by eexists.
Qed.

Lemma written_version_is_found_witness :
  pragma_version
    (string_of_list_ascii
       (pragma_header ++ list_ascii_of_string ">="
          ++ list_ascii_of_string "0.4.22"
          ++ ";"%char :: list_ascii_of_string " contract Bank {}"))
  = Some "0.4.22" ∧
  ∀ pre,
    is_Some (pragma_version
               (string_of_list_ascii
                  (pre ++ pragma_header ++ list_ascii_of_string ">="
                     ++ list_ascii_of_string "0.4.22"
                     ++ ";"%char :: list_ascii_of_string " contract Bank {}"))).
Proof.
  apply (written_version_is_found (list_ascii_of_string ">=")
           (list_ascii_of_string "0.4.22")
           (list_ascii_of_string " contract Bank {}")).
  - apply (bool_decide_unpack _). by vm_compute.
  - exists ["0"%char], ["4"%char], ["2"%char; "2"%char].
    split_and!; try done; repeat constructor.
Defined.

Lemma py_getitem_lookup {A} (l : list A) (i : Z) (x : A) :
  0 ≤ i → py_getitem l i = Ok x ↔ l !! Z.to_nat i = Some x.
Proof.
  intros Hi. unfold py_getitem.
  destruct (i <? 0) eqn:Hneg; [lia|]. cbv zeta.
  destruct ((i <? 0) || (Z.of_nat (length l) <=? i)) eqn:Hout.
  - split; [done|]. intros Hl. apply lookup_lt_Some in Hl.
    apply orb_true_iff in Hout as [?|?]; lia.
  - destruct (l !! Z.to_nat i); split; intros; by simplify_eq.
Qed.

Lemma py_getitem_take {A} (l : list A) (n : nat) (i : Z) :
  0 ≤ i < Z.of_nat n → py_getitem (take n l) i = py_getitem l i.
Proof.
  intros Hi. unfold py_getitem.
  replace (i <? 0) with false by (symmetry; apply Z.ltb_ge; lia). cbv zeta.
  rewrite length_take, lookup_take_lt by lia.
  destruct (decide (Z.of_nat (length l) ≤ i)) as [Hout|Hin].
  - replace (Z.of_nat (n `min` length l) <=? i) with true
      by (symmetry; apply Z.leb_le; lia).
    by replace (Z.of_nat (length l) <=? i) with true
      by (symmetry; apply Z.leb_le; lia).
  - replace (Z.of_nat (n `min` length l) <=? i) with false
      by (symmetry; apply Z.leb_gt; lia).
    by replace (Z.of_nat (length l) <=? i) with false
      by (symmetry; apply Z.leb_gt; lia).
Qed.

Lemma py_getitem_beyond {A} (l : list A) (i : Z) :
  Z.of_nat (length l) ≤ i → py_getitem l i = Raise IndexError.
Proof.
  intros Hi. unfold py_getitem.
  replace (i <? 0) with false by (symmetry; apply Z.ltb_ge; lia). cbv zeta.
  replace (Z.of_nat (length l) <=? i) with true
    by (symmetry; apply Z.leb_le; lia).
  by rewrite orb_true_r.
Qed.

Section ProgramProperties.

Variable entropy : nat -> Z.
Variable to_checksum_address : string -> string.
Variable node_deploys : list Request -> option Contract.
Variable node_transacts : list Request -> option TxReceipt.
Variable node_traces : list Request -> result DebugResult.
Variable read_file : string -> option string.
Variable solc : string -> string -> option (list json).
Variable connect : string -> Connection.
Variable unicode_int : string -> result Z.

Lemma parse_args_take (argv : list string) :
  parse_args unicode_int (take 4 argv) = parse_args unicode_int argv.
Proof.
  unfold parse_args.
  by rewrite !(py_getitem_take argv 4) by lia.
Qed.

Lemma parse_args_short (argv : list string) :
  (length argv < 4)%nat → parse_args unicode_int argv = None.
Proof.
  intros Hlen. unfold parse_args.
  rewrite (py_getitem_beyond argv 3) by lia.
  destruct (py_getitem argv 1); [|done].
  destruct (py_getitem argv 2) as [count|]; [|done].
  by destruct (int_of_text unicode_int count).
Qed.

(** X23. The program reads the three arguments that follow the name of
    the script and nothing else. What it does with a command line is what
    it does with the first four entries of it: further arguments are not
    looked at. With fewer entries it ends with the exception for incorrect
    arguments, before anything is compiled, connected or sent. *)
Theorem only_three_arguments_are_read (argv : list string) :
  main entropy to_checksum_address node_deploys node_transacts node_traces
    read_file solc connect unicode_int argv
  = main entropy to_checksum_address node_deploys node_transacts node_traces
      read_file solc connect unicode_int (take 4 argv) ∧
  main entropy to_checksum_address node_deploys node_transacts node_traces
    read_file solc connect unicode_int (take 3 argv)
  = (IncorrectArguments, new_world, []).
Proof.
  split.
  - unfold main. by rewrite parse_args_take.
  - unfold main. rewrite parse_args_short; [done|].
    rewrite length_take. lia.
Qed.

(** X24. [main] does not test what the compiler returned. When the file
    cannot be read, has no pragma of the expected form, or does not
    compile, the program ends with the [TypeError] of subscripting
    [None]: no connection is opened, no request is sent, nothing is
    reported. *)
Theorem failed_compilation_ends_in_type_error (argv : list string)
    (contract_path : string) (test_cases : Z) (rpc_url : string) :
  parse_args unicode_int argv = Some (contract_path, test_cases, rpc_url) →
  not_compilable read_file solc contract_path →
  main entropy to_checksum_address node_deploys node_transacts node_traces
    read_file solc connect unicode_int argv
  = (Uncaught TypeError, new_world, []).
Proof.
  intros Hargs Hnot. unfold main, compile_smart_contract, not_compilable in *.
  rewrite Hargs.
  destruct (read_file contract_path) as [source_code|]; [|done].
  destruct (pragma_version source_code) as [v|]; [|done].
  by rewrite Hnot.
Qed.

(** X25. A program that finishes has asked the node for one deployment
    per test case, and for none when the count is zero or negative; a
    program that ends with an exception has asked for no more than
    that. *)
Theorem program_deploys_once_per_test_case (argv : list string)
    (contract_path : string) (test_cases : Z) (rpc_url : string) :
  parse_args unicode_int argv = Some (contract_path, test_cases, rpc_url) →
  let end_of_program :=
    main entropy to_checksum_address node_deploys node_transacts node_traces
      read_file solc connect unicode_int argv in
  match end_of_program.1.1 with
  | Finished =>
      deploys (requests end_of_program.1.2) = Z.to_nat test_cases
  | _ =>
      (deploys (requests end_of_program.1.2) ≤ Z.to_nat test_cases)%nat
  end.
Proof.
  intros Hargs. cbv zeta. unfold main. rewrite Hargs.
  assert (Hnone : (deploys (requests new_world) ≤ Z.to_nat test_cases)%nat)
    by (change (deploys (requests new_world)) with 0%nat; lia).
  destruct (compile_smart_contract _ _ _) as [output|e]; [|exact Hnone].
  destruct (artifacts output) as [ast|e]; [|exact Hnone].
  unfold connection.
  destruct (connect rpc_url) as [|accounts]; [exact Hnone|].
  destruct (py_getitem accounts 0) as [account|e]; [|exact Hnone].
  pose proof (rounds_deploy entropy to_checksum_address node_deploys
                node_transacts node_traces ast (Z.to_nat test_cases) 0%nat
                new_world) as Hrun.
  unfold run, outcome, final in *.
  destruct (for_each _ _ new_world) as [[[[]|e] w] l]; simpl in *; lia.
Qed.

End ProgramProperties.

Lemma failed_compilation_ends_in_type_error_witness :
  main sample_entropy no_checksum always_deploys always_mines
    (always_traces two_risky_calls) (one_file range_source)
    (sample_solc (sample_output ast_two_functions)) one_account
    sample_unicode_int
    ["main.py"; "Bank.sol"; fullwidth_three; "http://127.0.0.1:8545"]
  = (Uncaught TypeError, new_world, []).
Proof.
  apply (failed_compilation_ends_in_type_error sample_entropy no_checksum
           always_deploys always_mines (always_traces two_risky_calls)
           (one_file range_source)
           (sample_solc (sample_output ast_two_functions)) one_account
           sample_unicode_int
           ["main.py"; "Bank.sol"; fullwidth_three; "http://127.0.0.1:8545"]
           "Bank.sol" 3 "http://127.0.0.1:8545").
  - by vm_compute.
  - by vm_compute.
Defined.

Lemma program_deploys_once_per_test_case_witness :
  deploys (requests
    (main sample_entropy no_checksum always_deploys always_mines
       (always_traces two_risky_calls) (one_file sample_source)
       (sample_solc (sample_output ast_two_functions)) one_account
       sample_unicode_int
       ["main.py"; "Bank.sol"; "3"; "http://127.0.0.1:8545"]).1.2) = 3%nat.
Proof.
  pose proof (program_deploys_once_per_test_case sample_entropy no_checksum
           always_deploys always_mines (always_traces two_risky_calls)
           (one_file sample_source)
           (sample_solc (sample_output ast_two_functions)) one_account
           sample_unicode_int
           ["main.py"; "Bank.sol"; "3"; "http://127.0.0.1:8545"]
           "Bank.sol" 3 "http://127.0.0.1:8545" eq_refl) as H.
  cbv zeta in H.
  replace (main sample_entropy no_checksum always_deploys always_mines
       (always_traces two_risky_calls) (one_file sample_source)
       (sample_solc (sample_output ast_two_functions)) one_account
       sample_unicode_int
       ["main.py"; "Bank.sol"; "3"; "http://127.0.0.1:8545"]).1.1
    with Finished in H by (by vm_compute).
  exact H.
Defined.

(** ** Reverted transactions *)

Section RevertingNode.

Variable entropy : nat -> Z.
Variable to_checksum_address : string -> string.
Variable node_deploys : list Request -> option Contract.
Variable node_transacts : list Request -> option TxReceipt.
Variable node_traces : list Request -> result DebugResult.
Variable ast : json.
Hypothesis node_reverts : reverting node_traces.

Lemma reverted_trace_is_dropped contract f w struct_logs :
  outcome (trace_to_analyse node_transacts node_traces contract f w)
  ≠ Ok (Some struct_logs).
Proof.
  unfold trace_to_analyse, execute_transaction, debug_transaction.
  destruct (inputs f) as [args|]; [|done].
  unfold bind, request, get, modify, ret, lift, outcome. simpl.
  destruct (node_transacts _) as [receipt|]; [|done]. simpl.
  destruct (node_traces _) as [result|e] eqn:Htrace; [|done]. simpl.
  by rewrite (node_reverts _ _ Htrace).
Qed.

Lemma reverted_call_reports_nothing contract f :
  silent (execute_function node_transacts node_traces contract f) ∧
  keeps detector (execute_function node_transacts node_traces contract f).
Proof.
  split; intros w.
  - pose proof (silent_trace_to_analyse node_transacts node_traces contract f w)
      as Hlog.
    pose proof (reverted_trace_is_dropped contract f w) as Hnone.
    unfold execute_function, bind, outcome, logged in *.
    destruct (trace_to_analyse _ _ _ _ w) as [[[[t|]|e] w1] l1]; simpl in *;
      [by destruct (Hnone t)|by subst|by subst].
  - pose proof (pd_trace_to_analyse node_transacts node_traces contract f w)
      as Hdet.
    pose proof (reverted_trace_is_dropped contract f w) as Hnone.
    unfold execute_function, bind, outcome, final in *.
    destruct (trace_to_analyse _ _ _ _ w) as [[[[t|]|e] w1] l1]; simpl in *;
      [by destruct (Hnone t)|done|done].
Qed.

Lemma reverted_round_reports_nothing :
  silent (round entropy to_checksum_address node_deploys node_transacts
            node_traces ast) ∧
  keeps detector (round entropy to_checksum_address node_deploys node_transacts
                    node_traces ast).
Proof.
  unfold round. split.
  - apply silent_bind; [apply silent_generate_test_suite|]. intros suite.
    apply silent_bind; [by intros w|]. intros [contract|]; [|by intros w].
    destruct suite.1 as [fs|]; [|by intros w]. simpl.
    apply silent_for_each. intros f. apply reverted_call_reports_nothing.
  - apply keeps_bind; [apply pd_generate_test_suite|]. intros suite.
    apply keeps_bind; [by intros w|]. intros [contract|]; [|by intros w].
    destruct suite.1 as [fs|]; [|by intros w]. simpl.
    apply keeps_for_each. intros f. apply reverted_call_reports_nothing.
Qed.

(** X26. Traces of reverted transactions are not analysed: on a node
    where every transaction reverts, a run of any length reports nothing
    and leaves the detector as it was, whatever the traces contain. *)
Theorem reverted_transactions_report_nothing (num_tests : Z) (w : World) :
  logged (run entropy to_checksum_address node_deploys node_transacts
            node_traces ast num_tests w) = [] ∧
  detector (final (run entropy to_checksum_address node_deploys node_transacts
                     node_traces ast num_tests w)) = detector w.
Proof.
  unfold run. split.
  - apply silent_for_each. intros _. apply reverted_round_reports_nothing.
  - apply (keeps_for_each detector). intros _.
    apply reverted_round_reports_nothing.
Qed.

End RevertingNode.

Lemma reverted_transactions_report_nothing_witness :
  logged (run sample_entropy no_checksum always_deploys always_mines
            (always_reverts two_risky_calls) ast_two_functions 2 new_world) = [] ∧
  detector (final (run sample_entropy no_checksum always_deploys always_mines
                     (always_reverts two_risky_calls) ast_two_functions 2
                     new_world)) = detector new_world.
Proof.
  apply (reverted_transactions_report_nothing sample_entropy no_checksum
           always_deploys always_mines (always_reverts two_risky_calls)
           ast_two_functions).
  intros history result Htrace. unfold always_reverts in Htrace.
  by simplify_eq.
Defined.
